(** * Admission plugins of origin: cluster resource quota and image policy

    A shallow embedding of two admission plugins:

    - [ClusterResourceQuota]: package [clusterresourcequota]
      ([Validate], [lockAquisition], [waitForSyncedStore], [ByName]);
    - [ImagePolicy]: package [imagepolicy]
      ([admit], [mutationPreventer], [imageResolutionCache],
      [resolutionConfig]).

    Go values are embedded as follows.  A [string] is a Rocq [string] (a
    sequence of bytes, compared bytewise as Go does); a pointer that may be
    nil is an [option]; a pair [(value, error)] returned by a Go function is
    a pair of options; a callee that writes through a pointer argument
    returns the new pointee; collaborators reached through interfaces
    (clients, informers, the lock factory, the evaluator) are Section
    variables or record fields. *)

From Stdlib Require Import ZArith List Bool String Ascii Lia.
From Stdlib Require Import Permutation Sorted.
Import ListNotations.

Local Open Scope string_scope.
Local Open Scope list_scope.

(** ** Strings as Go uses them *)

Module GoString.

(** [len(s)] *)
Definition len (s : string) : nat := String.length s.

(** [s1 < s2]: bytewise lexicographic order. *)
Definition lt (s1 s2 : string) : bool := String.ltb s1 s2.

(** [s1 <= s2] *)
Definition le (s1 s2 : string) : bool := String.leb s1 s2.

(** [strings.HasPrefix(s, p)] *)
Fixpoint HasPrefix (s p : string) : bool :=
  match p, s with
  | EmptyString, _ => true
  | String _ _, EmptyString => false
  | String c p', String d s' => Ascii.eqb c d && HasPrefix s' p'
  end.

(** [strings.Contains(s, sub)] *)
Fixpoint Contains (s sub : string) : bool :=
  HasPrefix s sub ||
  match s with
  | EmptyString => false
  | String _ s' => Contains s' sub
  end.

End GoString.

(** ** Package clusterresourcequota *)

Module ClusterResourceQuota.

(** Instants and durations, in nanoseconds as [time.Duration] counts them. *)
Definition Time := Z.

Definition Millisecond : Time := 1000000%Z.
Definition Second : Time := (1000 * Millisecond)%Z.

(** [timeToWaitForCacheSync = 10 * time.Second] *)
Definition timeToWaitForCacheSync : Time := (10 * Second)%Z.

(** The period of [time.After(100 * time.Millisecond)] in the wait loop. *)
Definition pollInterval : Time := (100 * Millisecond)%Z.

(** [corev1.ResourceQuota], reduced to the metadata the plugin reads. *)
Record ResourceQuota : Type := mkQuota {
  Name : string;
  Namespace : string
}.

(** [ByName.Less] on two elements. *)
Definition Less (a b : ResourceQuota) : bool := GoString.lt (Name a) (Name b).

(** An insertion sort by [Less], one of the algorithms [sort.Sort] may run. *)
Fixpoint insert_by_name (q : ResourceQuota) (l : list ResourceQuota)
  : list ResourceQuota :=
  match l with
  | [] => [q]
  | x :: rest => if Less x q then x :: insert_by_name q rest else q :: l
  end.

Fixpoint insertion_sort (l : list ResourceQuota) : list ResourceQuota :=
  match l with
  | [] => []
  | x :: rest => insert_by_name x (insertion_sort rest)
  end.

(** What the plugin does to the locks, in program order. *)
Inductive LockEvent (Locker : Type) : Type :=
| Lock (l : Locker)
| Unlock (l : Locker).

Arguments Lock {Locker} l.
Arguments Unlock {Locker} l.

Section LockAquisition.

(** [sync.Locker] and [q.lockFactory.GetLock]. *)
Variable Locker : Type.
Variable GetLock : string -> Locker.

(** [sort.Sort(ByName(quotas))]: the standard library's sort, known by its
    contract only (the result is a rearrangement of the slice in which no
    later element is [Less] than an earlier one). *)
Variable sort_Sort : list ResourceQuota -> list ResourceQuota.

(** The body of [for _, quota := range quotas]: take the lock of each
    quota in slice order and append it to [locks]. *)
Fixpoint acquire (quotas : list ResourceQuota)
  (locks : list Locker) (trace : list (LockEvent Locker))
  : list Locker * list (LockEvent Locker) :=
  match quotas with
  | [] => (locks, trace)
  | quota :: rest =>
      let lock := GetLock (Name quota) in
      acquire rest (locks ++ [lock]) (trace ++ [Lock lock])
  end.

(** [for i := len(locks) - 1; i >= 0; i-- { locks[i].Unlock() }], with [n]
    one more than the index visited next. *)
Fixpoint unlock_down (locks : list Locker) (n : nat)
  : list (LockEvent Locker) :=
  match n with
  | O => []
  | S i =>
      match nth_error locks i with
      | Some lock => Unlock lock :: unlock_down locks i
      | None => []
      end
  end.

(** [clusterQuotaAdmission.lockAquisition]: the events of the call, and
    the events of the release function it returns. *)
Definition lockAquisition (quotas : list ResourceQuota)
  : list (LockEvent Locker) * (unit -> list (LockEvent Locker)) :=
  let sorted := sort_Sort quotas in
  let '(locks, trace) := acquire sorted [] [] in
  (trace, fun _ => unlock_down locks (List.length locks)).

End LockAquisition.

Arguments acquire {Locker} GetLock quotas locks trace.
Arguments unlock_down {Locker} locks n.
Arguments lockAquisition {Locker} GetLock sort_Sort quotas.

(** Modelled from the spec: the default [LockFactory] (the lock factory
    is not among the sources).  "Lazily creates and caches one lock per
    identifier": the lock of a document is identified by the document's
    name. *)
Definition DefaultLockFactory_GetLock (name : string) : string := name.

(** A table of such mutexes, as the set of the ones that are held.
    [Lock] on a held mutex does not return (the mutexes are not reentrant)
    and [Unlock] on a free one is a fatal error: both are [None]. *)
Definition held_by (l : string) (held : list string) : bool :=
  existsb (String.eqb l) held.

Definition lock_step (held : list string) (e : LockEvent string)
  : option (list string) :=
  match e with
  | Lock l => if held_by l held then None else Some (l :: held)
  | Unlock l =>
      if held_by l held
      then Some (filter (fun k => negb (String.eqb l k)) held)
      else None
  end.

Fixpoint lock_run (held : list string) (es : list (LockEvent string))
  : option (list string) :=
  match es with
  | [] => Some held
  | e :: es' =>
      match lock_step held e with
      | Some held' => lock_run held' es'
      | None => None
      end
  end.

(** [admission.Operation] *)
Inductive Operation : Type := Create | Update | Delete | Connect.

(** [admission.Attributes], the part the plugin reads. *)
Record Attributes : Type := mkAttributes {
  GetOperation : Operation;
  GetSubresource : string;
  GetNamespace : string;
  GetName : string
}.

(** Errors [Validate] returns: [admission.NewForbidden(a, errors.New(msg))]
    and whatever the evaluator answers. *)
Inductive error : Type :=
| Forbidden (a : Attributes) (msg : string)
| EvaluatorError (msg : string).

(** What [Validate] does besides computing, in program order. *)
Inductive Event : Type :=
| EvPollSynced (t : Time)
| EvNewQuotaEvaluator
| EvEvaluate (a : Attributes).

(** The plugin's state and clock: [init] is the [sync.Once]. *)
Record World : Type := mkWorld {
  clock : Time;
  initDone : bool;
  trace : list Event
}.

(** Which case of the [select] ran. *)
Inductive Fired : Type := TickFired | TimeoutFired.

Section Validate.

(** [q.clusterQuotaSynced] and [q.namespaceSynced]: what the informers
    answer at a given instant. *)
Variable clusterQuotaSynced : Time -> bool.
Variable namespaceSynced : Time -> bool.

(** The case [select] runs when both channels become ready at the same
    instant (the runtime's choice); [true] is the timeout case. *)
Variable tie : Time -> bool.

(** [q.evaluator.Evaluate], the quota evaluator of the upstream library. *)
Variable Evaluate : Attributes -> option error.

Definition synced (t : Time) : bool :=
  clusterQuotaSynced t && namespaceSynced t.

(** [select { case <-time.After(100ms): case <-timeout: }] entered at
    [now], the timeout channel firing at [deadline]: the case that runs and
    the instant it runs at.  Calls take no time and timers fire on time. *)
Definition select (now deadline : Time) : Fired * Time :=
  let tick := (now + pollInterval)%Z in
  if (tick <? deadline)%Z then (TickFired, tick)
  else if (deadline <? tick)%Z then (TimeoutFired, Z.max now deadline)
  else if tie tick then (TimeoutFired, deadline)
  else (TickFired, tick).

(** [clusterQuotaAdmission.waitForSyncedStore(timeout)], [fuel] bounding
    the iterations of the [for] loop. *)
Fixpoint waitForSyncedStore (fuel : nat) (deadline : Time) (w : World)
  : option (bool * World) :=
  match fuel with
  | O => None
  | S fuel' =>
      let w1 := mkWorld (clock w) (initDone w)
                  (trace w ++ [EvPollSynced (clock w)]) in
      if negb (clusterQuotaSynced (clock w)) ||
         negb (namespaceSynced (clock w))
      then
        match select (clock w) deadline with
        | (TickFired, t) =>
            waitForSyncedStore fuel' deadline
              (mkWorld t (initDone w1) (trace w1))
        | (TimeoutFired, t) =>
            Some (clusterQuotaSynced t && namespaceSynced t,
                  mkWorld t (initDone w1) (trace w1 ++ [EvPollSynced t]))
        end
      else Some (true, w1)
  end.

(** [q.init.Do(func() { ... NewQuotaEvaluator ... })] *)
Definition initOnce (w : World) : World :=
  if initDone w then w
  else mkWorld (clock w) true (trace w ++ [EvNewQuotaEvaluator]).

(** [clusterQuotaAdmission.Validate] *)
Definition Validate (fuel : nat) (a : Attributes) (w : World)
  : option (option error * World) :=
  if negb (GoString.len (GetSubresource a) =? 0)%nat then Some (None, w)
  else if (GoString.len (GetNamespace a) =? 0)%nat then Some (None, w)
  else
    match waitForSyncedStore fuel (clock w + timeToWaitForCacheSync)%Z w with
    | None => None
    | Some (false, w1) =>
        Some (Some (Forbidden a "caches not synchronized"), w1)
    | Some (true, w1) =>
        let w2 := initOnce w1 in
        Some (Evaluate a,
              mkWorld (clock w2) (initDone w2) (trace w2 ++ [EvEvaluate a]))
    end.

End Validate.

(** Whether an event is a call of the evaluator. *)
Definition is_evaluate (e : Event) : bool :=
  match e with EvEvaluate _ => true | _ => false end.

(** *** Quotas for the examples *)

Definition exampleQuotas
  : list ResourceQuota :=
  [mkQuota "team-b" ""; mkQuota "default" ""; mkQuota "team-a" ""].

(** *** What a wait answers *)

(** What a finished wait looks like: the answer is what the caches say at
    the instant of return, which is a whole number of poll intervals after
    the start and not after the deadline; every earlier poll saw the caches
    out of sync; [false] is answered at the deadline only; and nothing but
    polls happened. *)
Record wait_result (clusterQuotaSynced namespaceSynced : Time -> bool)
  (deadline : Time) (w : World) (r : bool) (w' : World) : Prop := {
  wr_answer : r = synced clusterQuotaSynced namespaceSynced (clock w');
  wr_bounds : (clock w <= clock w' <= deadline)%Z;
  wr_false : r = false -> clock w' = deadline;
  wr_grid : (exists k : Z, 0 <= k /\ clock w' = clock w + k * pollInterval)%Z
            \/ clock w' = deadline;
  wr_first : forall j : Z, (0 <= j)%Z ->
             (clock w + j * pollInterval < clock w')%Z ->
             synced clusterQuotaSynced namespaceSynced
               (clock w + j * pollInterval)%Z = false;
  wr_init : initDone w' = initDone w;
  wr_trace : exists polls, trace w' = trace w ++ polls /\
                           existsb is_evaluate polls = false
}.

(** *** ByName as a [sort.Interface] *)

(** [v[i] = x]; an index out of range is left to the caller to exclude. *)
Fixpoint assign (v : list ResourceQuota) (i : nat) (x : ResourceQuota)
  : list ResourceQuota :=
  match v, i with
  | [], _ => []
  | _ :: rest, O => x :: rest
  | y :: rest, S i' => y :: assign rest i' x
  end.

(** [ByName.Len] *)
Definition ByName_Len (v : list ResourceQuota) : nat := List.length v.

(** [ByName.Swap]: [v[i], v[j] = v[j], v[i]]; an index out of range
    panics, which is [None]. *)
Definition ByName_Swap (v : list ResourceQuota) (i j : nat)
  : option (list ResourceQuota) :=
  match nth_error v i, nth_error v j with
  | Some vi, Some vj => Some (assign (assign v i vj) j vi)
  | _, _ => None
  end.

(** [ByName.Less]: [v[i].Name < v[j].Name]; an index out of range panics. *)
Definition ByName_Less (v : list ResourceQuota) (i j : nat) : option bool :=
  match nth_error v i, nth_error v j with
  | Some vi, Some vj => Some (Less vi vj)
  | _, _ => None
  end.

(** Whether an event is the building of the evaluator. *)
Definition is_new_evaluator (e : Event) : bool :=
  match e with EvNewQuotaEvaluator => true | _ => false end.

(** Whether an event is a poll of the caches. *)
Definition is_poll (e : Event) : bool :=
  match e with EvPollSynced _ => true | _ => false end.

(** Whether a trace builds the evaluator at most once and evaluates only
    once it is built, [built] telling whether it is built at the start. *)
Fixpoint builds_then_evaluates (built : bool) (tr : list Event) : bool :=
  match tr with
  | [] => true
  | EvPollSynced _ :: rest => builds_then_evaluates built rest
  | EvNewQuotaEvaluator :: rest =>
      negb built && builds_then_evaluates true rest
  | EvEvaluate _ :: rest => built && builds_then_evaluates built rest
  end.

(** The state of a plugin that has served requests from its creation: its
    once flag says whether the evaluator was built, and its trace builds
    the evaluator at most once and before it evaluates. *)
Definition built_once (w : World) : Prop :=
  initDone w = existsb is_new_evaluator (trace w) /\
  builds_then_evaluates false (trace w) = true.

Section ValidateAll.

Variable clusterQuotaSynced : Time -> bool.
Variable namespaceSynced : Time -> bool.
Variable tie : Time -> bool.
Variable Evaluate : Attributes -> option error.

(** One request after the other through [Validate], the plugin's state
    going from each call to the next; the results come in request order. *)
Fixpoint ValidateAll (fuel : nat) (requests : list Attributes) (w : World)
  : option (list (option error) * World) :=
  match requests with
  | [] => Some ([], w)
  | a :: rest =>
      match Validate clusterQuotaSynced namespaceSynced tie Evaluate
              fuel a w with
      | None => None
      | Some (r, w1) =>
          match ValidateAll fuel rest w1 with
          | None => None
          | Some (rs, w2) => Some (r :: rs, w2)
          end
      end
  end.

End ValidateAll.

End ClusterResourceQuota.

(** ** Types of the packages the image policy plugin imports

    One module per Go package, holding the fields the plugin reads. *)

(** [k8s.io/apimachinery/pkg/apis/meta/v1] *)
Module metav1.

Record GroupResource : Type := mkGroupResource {
  Group : string;
  Resource : string
}.

(** [==] on the struct, as a map key or in a comparison. *)
Definition GroupResource_eqb (a b : GroupResource) : bool :=
  String.eqb (Group a) (Group b) && String.eqb (Resource a) (Resource b).

(** [metav1.StatusDetails] *)
Record StatusDetails : Type := mkStatusDetails {
  DetailsName : string;
  DetailsGroup : string;
  DetailsKind : string
}.

Definition StatusReasonNotFound : string := "NotFound".
Definition StatusReasonForbidden : string := "Forbidden".

End metav1.

(** Go's [error] values, as far as the plugin tells them apart, and
    [k8s.io/apimachinery/pkg/api/errors]. *)
Module apierrs.

Inductive error : Type :=
| StatusError (reason : string) (details : option metav1.StatusDetails)
    (message : string)
| errorString (s : string).

(** [err.Error()] *)
Definition Error (e : error) : string :=
  match e with
  | StatusError _ _ message => message
  | errorString s => s
  end.

(** [apierrs.IsNotFound] *)
Definition IsNotFound (e : error) : bool :=
  match e with
  | StatusError reason _ _ => String.eqb reason metav1.StatusReasonNotFound
  | errorString _ => false
  end.

End apierrs.

(** [github.com/openshift/library-go/pkg/image/reference] *)
Module reference.

Record DockerImageReference : Type := mkDockerImageReference {
  Registry : string;
  Namespace : string;
  Name : string;
  Tag : string;
  ID : string
}.

Definition zero : DockerImageReference :=
  mkDockerImageReference "" "" "" "" "".

(** [ref.Tag = tag] *)
Definition setTag (ref : DockerImageReference) (tag : string)
  : DockerImageReference :=
  mkDockerImageReference (Registry ref) (Namespace ref) (Name ref) tag (ID ref).

(** [ref.ID = id] *)
Definition setID (ref : DockerImageReference) (id : string)
  : DockerImageReference :=
  mkDockerImageReference (Registry ref) (Namespace ref) (Name ref) (Tag ref) id.

(** [ref.Namespace = ns] *)
Definition setNamespace (ref : DockerImageReference) (ns : string)
  : DockerImageReference :=
  mkDockerImageReference (Registry ref) ns (Name ref) (Tag ref) (ID ref).

End reference.

(** [github.com/openshift/api/image/v1] *)
Module imagev1.

Definition DefaultImageTag : string := "latest".

Record Image : Type := mkImage {
  Name : string;
  DockerImageReference : string;
  Annotations : list (string * string)
}.

(** [ImageStreamTag]: [LookupPolicy.Local] and the bound [Image]. *)
Record ImageStreamTag : Type := mkImageStreamTag {
  TagLookupPolicyLocal : bool;
  TagImage : Image
}.

(** [ImageStream]: [Spec.LookupPolicy.Local] and
    [Status.DockerImageRepository]. *)
Record ImageStream : Type := mkImageStream {
  SpecLookupPolicyLocal : bool;
  StatusDockerImageRepository : string
}.

(** [ImageStreamImage]: the [Image] it carries. *)
Record ImageStreamImage : Type := mkImageStreamImage {
  StreamImage : Image
}.

End imagev1.

(** [k8s.io/kubernetes/pkg/apis/core] *)
Module kapi.

Record ObjectReference : Type := mkObjectReference {
  Kind : string;
  Namespace : string;
  Name : string;
  UID : string;
  APIVersion : string;
  ResourceVersion : string;
  FieldPath : string
}.

(** [reflect.DeepEqual] on two references. *)
Definition DeepEqual (a b : ObjectReference) : bool :=
  String.eqb (Kind a) (Kind b) && String.eqb (Namespace a) (Namespace b) &&
  String.eqb (Name a) (Name b) && String.eqb (UID a) (UID b) &&
  String.eqb (APIVersion a) (APIVersion b) &&
  String.eqb (ResourceVersion a) (ResourceVersion b) &&
  String.eqb (FieldPath a) (FieldPath b).

(** [ref.Namespace = ns] *)
Definition setNamespace (ref : ObjectReference) (ns : string)
  : ObjectReference :=
  mkObjectReference (Kind ref) ns (Name ref) (UID ref) (APIVersion ref)
    (ResourceVersion ref) (FieldPath ref).

End kapi.

(** [.../imagepolicy/rules] *)
Module rules.

Record ImagePolicyAttributes : Type := mkImagePolicyAttributes {
  Name : reference.DockerImageReference;
  Image : option imagev1.Image;
  IntegratedRegistry : bool;
  LocalRewrite : bool
}.

End rules.

(** [github.com/hashicorp/golang-lru]: a cache of bounded size keyed by
    strings; the entries are kept most recently used first. *)
Module lru.

Section Cache.

Variable V : Type.

Record Cache : Type := mkCache {
  size : nat;
  items : list (string * V)
}.

(** [lru.New(size)] *)
Definition New (n : nat) : Cache := mkCache n [].

Fixpoint lookup (key : string) (l : list (string * V)) : option V :=
  match l with
  | [] => None
  | (k, v) :: rest => if String.eqb key k then Some v else lookup key rest
  end.

Definition without (key : string) (l : list (string * V))
  : list (string * V) :=
  filter (fun kv => negb (String.eqb key (fst kv))) l.

(** [Peek]: the value of a key, the order of use left alone. *)
Definition Peek (key : string) (c : Cache) : option V :=
  lookup key (items c).

(** [Get]: the value of a key, which becomes the most recently used. *)
Definition Get (key : string) (c : Cache) : option V * Cache :=
  match lookup key (items c) with
  | Some v => (Some v, mkCache (size c) ((key, v) :: without key (items c)))
  | None => (None, c)
  end.

(** [Add]: a known key takes the new value and becomes the most recently
    used; a new key goes first and, the cache being over its size, the
    least recently used entry is dropped. *)
Definition Add (key : string) (v : V) (c : Cache) : Cache :=
  match lookup key (items c) with
  | Some _ => mkCache (size c) ((key, v) :: without key (items c))
  | None =>
      let l := (key, v) :: items c in
      if (size c <? List.length l)%nat
      then mkCache (size c) (removelast l)
      else mkCache (size c) l
  end.

End Cache.

Arguments mkCache {V} size items.
Arguments size {V} c.
Arguments items {V} c.
Arguments New {V} n.
Arguments lookup {V} key l.
Arguments without {V} key l.
Arguments Peek {V} key c.
Arguments Get {V} key c.
Arguments Add {V} key v c.

End lru.

(** [.../admission/apis/imagepolicy/v1], the plugin's configuration. *)
Module imagepolicyv1.

(** [type ImageResolutionType string] and its declared values. *)
Definition ImageResolutionType : Type := string.

Definition RequiredRewrite : ImageResolutionType := "RequiredRewrite".
Definition Required : ImageResolutionType := "Required".
Definition AttemptRewrite : ImageResolutionType := "AttemptRewrite".
Definition Attempt : ImageResolutionType := "Attempt".
Definition DoNotAttempt : ImageResolutionType := "DoNotAttempt".

Record ImageResolutionPolicyRule : Type := mkImageResolutionPolicyRule {
  Policy : ImageResolutionType;
  TargetResource : metav1.GroupResource;
  LocalNames : bool
}.

Record ImagePolicyConfig : Type := mkImagePolicyConfig {
  ResolveImages : ImageResolutionType;
  ResolutionRules : list ImageResolutionPolicyRule
}.

End imagepolicyv1.

(** ** Package imagepolicy *)

Module ImagePolicy.

Import apierrs.

(** Instants ([time.Time]) and durations in nanoseconds. *)
Definition Time := Z.

(** [time.Minute] *)
Definition Minute : Time := 60000000000%Z.

(** [imagev1typedclient.ImageV1Interface]: what the image API answers to
    the three reads the resolver makes ([Images().Get(id)],
    [ImageStreamTags(ns).Get(name)], [ImageStreams(ns).Get(name)]). *)
Record ImageV1Interface : Type := mkImageV1Interface {
  Images_Get : string -> imagev1.Image + error;
  ImageStreamTags_Get : string -> string -> imagev1.ImageStreamTag + error;
  ImageStreams_Get : string -> string -> imagev1.ImageStream + error
}.

Record imageCacheEntry : Type := mkImageCacheEntry {
  expires : Time;
  image : option imagev1.Image
}.

Record imageResolutionCache : Type := mkImageResolutionCache {
  imageClient : ImageV1Interface;
  integrated : string -> bool;
  expiration : Time;
  cache : lru.Cache imageCacheEntry
}.

(** [c.cache] replaced: what a call that wrote to the cache leaves. *)
Definition setCache (c : imageResolutionCache)
  (cache' : lru.Cache imageCacheEntry) : imageResolutionCache :=
  mkImageResolutionCache (imageClient c) (integrated c) (expiration c) cache'.

(** [newImageResolutionCache]; [lru.New(128)] cannot fail. *)
Definition newImageResolutionCache (imageClient : ImageV1Interface)
  (integratedRegistry : string -> bool) : imageResolutionCache :=
  mkImageResolutionCache imageClient integratedRegistry Minute
    (lru.New 128).

(** What a resolution returns: the attributes (nil or not), the error (nil
    or not) and the resolver after the call. *)
Definition Resolution : Type :=
  option rules.ImagePolicyAttributes * option error * imageResolutionCache.

(** [isImageStreamTagNotFound] (never called with a nil error). *)
Definition isImageStreamTagNotFound (err : error) : bool :=
  if negb (IsNotFound err) then false
  else
    match err with
    | StatusError _ details _ =>
        match details with
        | None => false
        | Some d =>
            String.eqb (metav1.DetailsKind d) "imagestreamtags" &&
            String.eqb (metav1.DetailsGroup d) "image.openshift.io"
        end
    | errorString _ => false
    end.

Section Resolver.

(** [reference.Parse] *)
Variable Parse : string -> reference.DockerImageReference + error.

(** [DockerImageReference.Exact] *)
Variable Exact : reference.DockerImageReference -> string.

(** [imageutil.JoinImageStreamTag] *)
Variable JoinImageStreamTag : string -> string -> string.

(** The tag-not-found branch of [resolveImageStreamTag]: the reference
    made up from the stream's repository, if the stream qualifies. *)
Definition streamFallback (c : imageResolutionCache)
  (namespace name tag : string) (forceResolveLocalNames : bool)
  : option reference.DockerImageReference :=
  match ImageStreams_Get (imageClient c) namespace name with
  | inl stream =>
      if (forceResolveLocalNames || imagev1.SpecLookupPolicyLocal stream) &&
         (0 <? GoString.len (imagev1.StatusDockerImageRepository stream))%nat
      then
        match Parse (imagev1.StatusDockerImageRepository stream) with
        | inl ref => Some (reference.setTag ref tag)
        | inr _ => None
        end
      else None
  | inr _ => None
  end.

(** [imageResolutionCache.resolveImageStreamTag], the clock reading [now]. *)
Definition resolveImageStreamTag (c : imageResolutionCache) (now : Time)
  (namespace name tag : string) (partial forceResolveLocalNames : bool)
  : Resolution :=
  let attrs := rules.mkImagePolicyAttributes reference.zero None true false in
  match ImageStreamTags_Get (imageClient c) namespace
          (JoinImageStreamTag name tag) with
  | inr err =>
      let attrs :=
        if partial
        then rules.mkImagePolicyAttributes (rules.Name attrs)
               (rules.Image attrs) false (rules.LocalRewrite attrs)
        else attrs in
      match
        (if isImageStreamTagNotFound err
         then streamFallback c namespace name tag forceResolveLocalNames
         else None)
      with
      | Some ref =>
          (Some (rules.mkImagePolicyAttributes ref (rules.Image attrs)
                   (rules.IntegratedRegistry attrs) true),
           None, c)
      | None => (Some attrs, Some err, c)
      end
  | inl resolved =>
      if partial && (negb forceResolveLocalNames &&
                     negb (imagev1.TagLookupPolicyLocal resolved))
      then
        (Some (rules.mkImagePolicyAttributes (rules.Name attrs)
                 (rules.Image attrs) false (rules.LocalRewrite attrs)),
         Some (errorString "ImageStreamTag does not allow local references and the resource did not request image stream resolution"),
         c)
      else
        let attrs :=
          if partial
          then rules.mkImagePolicyAttributes (rules.Name attrs)
                 (rules.Image attrs) (rules.IntegratedRegistry attrs) true
          else attrs in
        let img := imagev1.TagImage resolved in
        match Parse (imagev1.DockerImageReference img) with
        | inr err =>
            (Some attrs,
             Some (errorString
                     (String.append "image reference "
                        (String.append (imagev1.DockerImageReference img)
                           (String.append " could not be parsed: "
                              (Error err))))),
             c)
        | inl ref =>
            let ref := reference.setID (reference.setTag ref "")
                         (imagev1.Name img) in
            let cache' :=
              lru.Add (imagev1.Name img)
                (mkImageCacheEntry (now + expiration c)%Z (Some img))
                (cache c) in
            (Some (rules.mkImagePolicyAttributes ref (Some img)
                     (rules.IntegratedRegistry attrs)
                     (rules.LocalRewrite attrs)),
             None, setCache c cache')
        end
  end.

(** The rest of the digest branch of [resolveImageReference], once the
    cache had no fresh entry: ask the image API and remember the answer. *)
Definition fetchByID (c : imageResolutionCache) (now : Time)
  (ref : reference.DockerImageReference) : Resolution :=
  match Images_Get (imageClient c) (reference.ID ref) with
  | inr err => (None, Some err, c)
  | inl image =>
      let cache' :=
        lru.Add (reference.ID ref)
          (mkImageCacheEntry (now + expiration c)%Z (Some image))
          (cache c) in
      (Some (rules.mkImagePolicyAttributes ref (Some image)
               (integrated c (reference.Registry ref)) false),
       None, setCache c cache')
  end.

(** [imageResolutionCache.resolveImageReference], the clock reading [now]. *)
Definition resolveImageReference (c : imageResolutionCache) (now : Time)
  (ref : reference.DockerImageReference) (defaultNamespace : string)
  (forceResolveLocalNames : bool) : Resolution :=
  if (0 <? GoString.len (reference.ID ref))%nat then
    match lru.Get (reference.ID ref) (cache c) with
    | (Some cached, cache1) =>
        if (now <? expires cached)%Z
        then (Some (rules.mkImagePolicyAttributes ref (image cached)
                      false false),
              None, setCache c cache1)
        else fetchByID (setCache c cache1) now ref
    | (None, cache1) => fetchByID (setCache c cache1) now ref
    end
  else
    let fullReference := integrated c (reference.Registry ref) in
    let partialReference :=
      forceResolveLocalNames ||
      ((GoString.len (reference.Registry ref) =? 0)%nat &&
       (GoString.len (reference.Namespace ref) =? 0)%nat &&
       (0 <? GoString.len (reference.Name ref))%nat) in
    if negb fullReference && negb partialReference then
      (None,
       Some (errorString
               (String.append "("
                  (String.append (Exact ref)
                     ") could not be resolved to an exact image reference"))),
       c)
    else
      let tag :=
        if (GoString.len (reference.Tag ref) =? 0)%nat
        then imagev1.DefaultImageTag else reference.Tag ref in
      let ref :=
        if (GoString.len (reference.Namespace ref) =? 0)%nat
           || forceResolveLocalNames
        then reference.setNamespace ref defaultNamespace else ref in
      resolveImageStreamTag c now (reference.Namespace ref)
        (reference.Name ref) tag partialReference forceResolveLocalNames.

End Resolver.

(** *** resolutionConfig *)

(** [resolutionRuleCoversResource] *)
Definition resolutionRuleCoversResource (rule gr : metav1.GroupResource)
  : bool :=
  String.eqb (metav1.Group rule) (metav1.Group gr) &&
  (String.eqb (metav1.Resource rule) (metav1.Resource gr) ||
   String.eqb (metav1.Resource rule) "*").

(** The keys of the map [skipImageRewriteOnUpdate]. *)
Definition skipImageRewriteOnUpdate : list metav1.GroupResource :=
  [metav1.mkGroupResource "batch" "jobs";
   metav1.mkGroupResource "build.openshift.io" "builds";
   metav1.mkGroupResource "apps" "statefulsets"].

(** [_, ok := skipImageRewriteOnUpdate[gr]] *)
Definition skipsRewriteOnUpdate (gr : metav1.GroupResource) : bool :=
  existsb (metav1.GroupResource_eqb gr) skipImageRewriteOnUpdate.

(** The package's function [RewriteImagePullSpec(ImageResolutionType)] is
    not among the sources; the plugin's code is embedded over any such
    function ([rewritesFor] below), and this is the one the package's tests
    and the comment on the method agree with: the two rewriting policies
    rewrite. *)
Definition rewritingPolicy (t : imagepolicyv1.ImageResolutionType) : bool :=
  String.eqb t imagepolicyv1.RequiredRewrite ||
  String.eqb t imagepolicyv1.AttemptRewrite.

Section ResolutionConfig.

(** The package-level [RewriteImagePullSpec(ImageResolutionType) bool]. *)
Variable rewritesFor : imagepolicyv1.ImageResolutionType -> bool.

(** [resolutionConfig.Covers] *)
Definition Covers (config : imagepolicyv1.ImagePolicyConfig)
  (gr : metav1.GroupResource) : bool :=
  existsb
    (fun rule =>
       resolutionRuleCoversResource (imagepolicyv1.TargetResource rule) gr)
    (imagepolicyv1.ResolutionRules config).

(** The [for _, rule := range config.config.ResolutionRules] loop of
    [RewriteImagePullSpec] and what follows it; [hasMatchingRule] is the
    loop's flag. *)
Fixpoint rewriteByRules (config : imagepolicyv1.ImagePolicyConfig)
  (rest : list imagepolicyv1.ImageResolutionPolicyRule)
  (attr : rules.ImagePolicyAttributes) (gr : metav1.GroupResource)
  (hasMatchingRule : bool) : bool :=
  match rest with
  | [] =>
      if hasMatchingRule then false
      else rewritesFor (imagepolicyv1.ResolveImages config)
  | rule :: rest' =>
      if negb (resolutionRuleCoversResource
                 (imagepolicyv1.TargetResource rule) gr)
      then rewriteByRules config rest' attr gr hasMatchingRule
      else if imagepolicyv1.LocalNames rule && rules.LocalRewrite attr
      then true
      else if rewritesFor (imagepolicyv1.Policy rule) then true
      else rewriteByRules config rest' attr gr true
  end.

(** [resolutionConfig.RewriteImagePullSpec] *)
Definition RewriteImagePullSpec (config : imagepolicyv1.ImagePolicyConfig)
  (attr : rules.ImagePolicyAttributes) (isUpdate : bool)
  (gr : metav1.GroupResource) : bool :=
  if isUpdate && skipsRewriteOnUpdate gr then false
  else
    rewriteByRules config (imagepolicyv1.ResolutionRules config) attr gr false.

(** Whether a rule covers the resource and, covering it, asks for the
    rewrite (by local name or by its policy). *)
Definition ruleCovers (gr : metav1.GroupResource)
  (rule : imagepolicyv1.ImageResolutionPolicyRule) : bool :=
  resolutionRuleCoversResource (imagepolicyv1.TargetResource rule) gr.

Definition ruleRewrites (attr : rules.ImagePolicyAttributes)
  (gr : metav1.GroupResource)
  (rule : imagepolicyv1.ImageResolutionPolicyRule) : bool :=
  ruleCovers gr rule &&
  ((imagepolicyv1.LocalNames rule && rules.LocalRewrite attr) ||
   rewritesFor (imagepolicyv1.Policy rule)).

(** The decision in the order the specification gives: the rules of the
    resource kind first, then the kinds that are immutable on update, then
    the global policy. *)
Definition RewriteImagePullSpec_rules_first
  (config : imagepolicyv1.ImagePolicyConfig)
  (attr : rules.ImagePolicyAttributes) (isUpdate : bool)
  (gr : metav1.GroupResource) : bool :=
  if existsb (ruleCovers gr) (imagepolicyv1.ResolutionRules config)
  then existsb (ruleRewrites attr gr) (imagepolicyv1.ResolutionRules config)
  else if isUpdate && skipsRewriteOnUpdate gr then false
  else rewritesFor (imagepolicyv1.ResolveImages config).

(** The decision with the immutable kinds first: on an update of one of
    them, no rewrite; otherwise the rules of the resource kind; otherwise,
    no rule covering the kind, the global policy. *)
Definition RewriteImagePullSpec_immutable_first
  (config : imagepolicyv1.ImagePolicyConfig)
  (attr : rules.ImagePolicyAttributes) (isUpdate : bool)
  (gr : metav1.GroupResource) : bool :=
  if isUpdate && skipsRewriteOnUpdate gr then false
  else if existsb (ruleCovers gr) (imagepolicyv1.ResolutionRules config)
  then existsb (ruleRewrites attr gr) (imagepolicyv1.ResolutionRules config)
  else rewritesFor (imagepolicyv1.ResolveImages config).

End ResolutionConfig.

(** *** The plugin *)

(** [admission.Operation] *)
Inductive Operation : Type := Create | Update | Delete | Connect.

(** [ImageReferenceMutateFunc]: [func(ref *kapi.ObjectReference) error];
    the function writes through [ref], so it answers the reference it
    leaves there together with its error. *)
Definition ImageReferenceMutateFunc : Type :=
  kapi.ObjectReference -> kapi.ObjectReference * option error.

(** The function [mutationPreventer.Mutate] hands to the mutator it wraps,
    for the caller's [fn]. *)
Definition preventMutation (fn : ImageReferenceMutateFunc)
  : ImageReferenceMutateFunc :=
  fun ref =>
    let original := ref in
    let '(ref', err) := fn ref in
    match err with
    | Some e =>
        (ref', Some (errorString
                       (String.append "error in image policy validation: "
                          (Error e))))
    | None =>
        if negb (kapi.DeepEqual ref' original)
        then (ref', Some (errorString "this image is prohibited by policy (changed after admission)"))
        else (ref', None)
    end.

(** [strings.Split(value, ",")], [acc] the piece read so far. *)
Fixpoint splitOnComma (value : string) (acc : string) : list string :=
  match value with
  | EmptyString => [acc]
  | String c rest =>
      if Ascii.eqb c ","%char then acc :: splitOnComma rest EmptyString
      else splitOnComma rest (String.append acc (String c EmptyString))
  end.

Section Plugin.

(** [runtime.Object] *)
Variable Object : Type.

(** [ImageReferenceMutator]: [Mutate(fn) field.ErrorList], run on the
    object the mutator was made for; it answers the object it leaves and
    the errors. *)
Definition ImageReferenceMutator : Type :=
  ImageReferenceMutateFunc -> Object -> Object * list error.

(** [mutationPreventer.Mutate], [m] the wrapped mutator. *)
Definition mutationPreventer_Mutate (m : ImageReferenceMutator)
  : ImageReferenceMutator :=
  fun fn => m (preventMutation fn).

(** [admission.Attributes] *)
Record Attributes : Type := mkAttributes {
  GetOperation : Operation;
  GetSubresource : string;
  GetResource : metav1.GroupResource;
  GetKind : string;
  GetNamespace : string;
  GetName : string;
  GetObject : Object;
  GetOldObject : option Object
}.

(** [a.accepter.Covers] *)
Variable accepter_Covers : metav1.GroupResource -> bool.

(** [a.config] *)
Variable config : imagepolicyv1.ImagePolicyConfig.

(** [internalimagereferencemutators.GetImageReferenceMutator] *)
Variable GetImageReferenceMutator :
  Object -> option Object -> ImageReferenceMutator + error.

(** [a.nsLister.Get(ns)], answering the namespace's annotations. *)
Variable nsLister_Get : string -> list (string * string) + error.

(** [imagepolicy.IgnorePolicyRulesAnnotation] *)
Variable IgnorePolicyRulesAnnotation : string.

(** The [%T] of an object. *)
Variable typeName : Object -> string.

(** [apierrs.NewForbidden] *)
Variable NewForbidden : metav1.GroupResource -> string -> error -> error.

(** The package's [accept], for the plugin's accepter, policy and resolver
    and the object's annotations: given the mutator, the attributes and the
    excluded rules it answers the object it leaves and its error. *)
Variable accept :
  ImageReferenceMutator -> Attributes -> option (list string) ->
  Object -> Object * option error.

(** [ns.Annotations[key]] *)
Fixpoint annotation (key : string) (l : list (string * string)) : string :=
  match l with
  | [] => EmptyString
  | (k, v) :: rest => if String.eqb key k then v else annotation key rest
  end.

(** The rules the namespace excludes, as [admit] loads them. *)
Definition excludedRules (attr : Attributes) : option (list string) :=
  if (0 <? GoString.len (GetNamespace attr))%nat then
    match nsLister_Get (GetNamespace attr) with
    | inl annotations =>
        let value := annotation IgnorePolicyRulesAnnotation annotations in
        if (0 <? GoString.len value)%nat
        then Some (splitOnComma value EmptyString)
        else None
    | inr _ => None
    end
  else None.

(** [imagePolicyPlugin.admit] after its [switch]: the object the call
    leaves and its error. *)
Definition applyPolicy (attr : Attributes) (mutationAllowed : bool)
  : Object * option error :=
  let schemagr := GetResource attr in
  if negb (accepter_Covers schemagr) && negb (Covers config schemagr)
  then (GetObject attr, None)
  else
    match GetImageReferenceMutator (GetObject attr) (GetOldObject attr) with
    | inr err =>
        (GetObject attr,
         Some (NewForbidden schemagr (GetName attr)
                 (errorString
                    (String.append
                       "unable to apply image policy against objects of type "
                       (String.append (typeName (GetObject attr))
                          (String.append ": " (Error err)))))))
    | inl m =>
        let m := if negb mutationAllowed
                 then mutationPreventer_Mutate m else m in
        accept m attr (excludedRules attr) (GetObject attr)
    end.

(** [imagePolicyPlugin.admit]: the object the call leaves and its error. *)
Definition imagePolicyPlugin_admit (attr : Attributes)
  (mutationAllowed : bool) : Object * option error :=
  match GetOperation attr with
  | Create | Update =>
      if (0 <? GoString.len (GetSubresource attr))%nat
      then (GetObject attr, None)
      else applyPolicy attr mutationAllowed
  | _ => (GetObject attr, None)
  end.

(** [imagePolicyPlugin.Admit] *)
Definition Admit (attr : Attributes) : Object * option error :=
  imagePolicyPlugin_admit attr true.

(** [imagePolicyPlugin.Validate] *)
Definition Validate (attr : Attributes) : Object * option error :=
  imagePolicyPlugin_admit attr false.

End Plugin.

Arguments mkAttributes {Object}.
Arguments GetOperation {Object} a.
Arguments GetSubresource {Object} a.
Arguments GetResource {Object} a.
Arguments GetKind {Object} a.
Arguments GetNamespace {Object} a.
Arguments GetName {Object} a.
Arguments GetObject {Object} a.
Arguments GetOldObject {Object} a.
Arguments mutationPreventer_Mutate {Object} m fn.
Arguments excludedRules {Object}.
Arguments applyPolicy {Object}.
Arguments imagePolicyPlugin_admit {Object}.
Arguments Admit {Object}.
Arguments Validate {Object}.

(** *** Invariants, observations and examples *)

(** What [newImageResolutionCache] fixes for good: entries live for a
    minute and the cache holds 128 of them. *)
Definition asBuilt (c : imageResolutionCache) : Prop :=
  expiration c = Minute /\ lru.size (cache c) = 128%nat.

(** Collaborators for the examples, after the fixtures of the package's
    tests: an image API that knows one image and two streams of the
    namespace [default] but no tag, the integrated registry, and the
    reference functions on the strings the examples use. *)
Module Examples.

Definition goodSHA : string :=
  "sha256:08151bf2fc92355f236918bb16905921e6f66e1d03100fb9b18d60125db3df3a".

Definition goodImage : imagev1.Image :=
  imagev1.mkImage goodSHA "integrated.registry/goodns/goodimage:good" [].

(** [kerrors.NewNotFound(GroupResource{image.openshift.io, resource}, name)] *)
Definition notFound (resource name : string) : error :=
  StatusError metav1.StatusReasonNotFound
    (Some (metav1.mkStatusDetails name "image.openshift.io" resource))
    "not found".

Definition client : ImageV1Interface :=
  mkImageV1Interface
    (fun id =>
       if String.eqb id goodSHA then inl goodImage
       else inr (notFound "images" id))
    (fun ns name => inr (notFound "imagestreamtags" name))
    (fun ns name =>
       if String.eqb name "test"
       then inl (imagev1.mkImageStream true
                   "integrated.registry:5000/default/test")
       else if String.eqb name "private"
       then inl (imagev1.mkImageStream false
                   "integrated.registry:5000/default/private")
       else inr (notFound "imagestreams" name)).

Definition integratedRegistry (registry : string) : bool :=
  String.eqb registry "integrated.registry".

Definition Parse (s : string) : reference.DockerImageReference + error :=
  if String.eqb s "integrated.registry:5000/default/test"
  then inl (reference.mkDockerImageReference
              "integrated.registry:5000" "default" "test" "" "")
  else if String.eqb s "integrated.registry:5000/default/private"
  then inl (reference.mkDockerImageReference
              "integrated.registry:5000" "default" "private" "" "")
  else inr (errorString "invalid reference format").

Definition Exact (ref : reference.DockerImageReference) : string :=
  reference.Name ref.

Definition JoinImageStreamTag (name tag : string) : string :=
  String.append name (String.append ":" tag).

(** [integrated.registry/repo/mysql@] followed by the digest. *)
Definition mysqlByDigest : reference.DockerImageReference :=
  reference.mkDockerImageReference
    "integrated.registry" "repo" "mysql" "" goodSHA.

Definition Second : Time := 1000000000%Z.

(** The rewrite of the package's test: the pull spec by tag becomes the
    pull spec by digest. *)
Definition digestOfLatest : string :=
  "myregistry.com/mysql/mysql@sha256:a3ed95caeb02ffe68cdd9fd84406680ae93d633cb16422d00e8a7c22955b46d4".

Definition resolveToDigest : ImageReferenceMutateFunc :=
  fun ref =>
    if String.eqb (kapi.Name ref) "myregistry.com/mysql/mysql:latest"
    then (kapi.mkObjectReference "DockerImage" "" digestOfLatest
            (kapi.UID ref) (kapi.APIVersion ref) (kapi.ResourceVersion ref)
            (kapi.FieldPath ref),
          None)
    else (ref, None).

Definition byTag : kapi.ObjectReference :=
  kapi.mkObjectReference "DockerImage" ""
    "myregistry.com/mysql/mysql:latest" "" "" "" "".

Definition byDigest : kapi.ObjectReference :=
  kapi.mkObjectReference "DockerImage" "" digestOfLatest "" "" "" "".

(** Two mutators for an object that is one image reference.  The first
    hands the function the address of the object's own field; the second
    hands it a copy and writes the copy back when the function succeeds. *)
Definition inPlace : ImageReferenceMutator kapi.ObjectReference :=
  fun fn obj =>
    let '(ref, err) := fn obj in
    (ref, match err with Some e => [e] | None => [] end).

Definition copyBack : ImageReferenceMutator kapi.ObjectReference :=
  fun fn obj =>
    let '(ref, err) := fn obj in
    match err with
    | Some e => (obj, [e])
    | None => (ref, [])
    end.

(** An [accept] that runs the rewrite through the mutator and fails with
    the first error. *)
Definition acceptByRewrite
  (m : ImageReferenceMutator kapi.ObjectReference)
  (attr : Attributes kapi.ObjectReference) (excluded : option (list string))
  (obj : kapi.ObjectReference) : kapi.ObjectReference * option error :=
  let '(obj', errs) := m resolveToDigest obj in
  (obj', hd_error errs).

Definition buildAttributes (op : Operation) (subresource : string)
  (obj : kapi.ObjectReference) : Attributes kapi.ObjectReference :=
  mkAttributes op subresource
    (metav1.mkGroupResource "build.openshift.io" "builds") "Build"
    "default" "build1" obj None.

End Examples.

(** The outcome of a resolution apart from the reference it names: the
    image, the two flags and the error. *)
Definition binding (r : Resolution)
  : option (option imagev1.Image * bool * bool) * option error :=
  (option_map
     (fun a => (rules.Image a, rules.IntegratedRegistry a,
                rules.LocalRewrite a))
     (fst (fst r)),
   snd (fst r)).

(** The case "resource match skips on job update" of the package's test:
    a rule for jobs asks for the rewrite of local names, the reference was
    resolved locally, and the job is being updated. *)
Definition jobsRuleConfig : imagepolicyv1.ImagePolicyConfig :=
  imagepolicyv1.mkImagePolicyConfig imagepolicyv1.DoNotAttempt
    [imagepolicyv1.mkImageResolutionPolicyRule EmptyString
       (metav1.mkGroupResource "batch" "jobs") true].

(** The table of the package's test of the resolution configuration: the
    configuration's default policy and its one rule (if any), the
    attributes' [LocalRewrite], whether the operation is an update, the
    resource, and the expected decision. *)
Definition testResolutionConfig
  : list (imagepolicyv1.ImagePolicyConfig * bool * bool *
          metav1.GroupResource * bool) :=
  let localNames group resource :=
    imagepolicyv1.mkImagePolicyConfig imagepolicyv1.DoNotAttempt
      [imagepolicyv1.mkImageResolutionPolicyRule EmptyString
         (metav1.mkGroupResource group resource) true] in
  let gr := metav1.mkGroupResource in
  [(imagepolicyv1.mkImagePolicyConfig imagepolicyv1.AttemptRewrite [],
    false, false, gr "" "", true);
   (localNames "" "*", false, false, gr "" "", false);
   (localNames "" "*", true, false, gr "" "", true);
   (localNames "test" "*", true, false, gr "other" "", false);
   (localNames "test" "self", true, false, gr "test" "other", false);
   (localNames "test" "self", true, false, gr "test" "self", true);
   (localNames "batch" "jobs", true, true, gr "batch" "jobs", false);
   (localNames "batch" "jobs", true, false, gr "batch" "jobs", true);
   (localNames "build.openshift.io" "builds", true, true,
    gr "build.openshift.io" "builds", false);
   (localNames "apps" "statefulsets", true, true,
    gr "apps" "statefulsets", false)].

Definition locallyResolved : rules.ImagePolicyAttributes :=
  rules.mkImagePolicyAttributes reference.zero None false true.

(** *** The rest of the resolver *)

Section ObjectReferences.

(** [reference.Parse] *)
Variable Parse : string -> reference.DockerImageReference + error.

(** [DockerImageReference.Exact] *)
Variable Exact : reference.DockerImageReference -> string.

(** [imageutil.JoinImageStreamTag] and [imageutil.JoinImageStreamImage] *)
Variable JoinImageStreamTag : string -> string -> string.
Variable JoinImageStreamImage : string -> string -> string.

(** [imageutil.SplitImageStreamTag] and [imageutil.SplitImageStreamImage]:
    the two parts and whether the name had the form. *)
Variable SplitImageStreamTag : string -> string * string * bool.
Variable SplitImageStreamImage : string -> string * string * bool.

(** [c.imageClient.ImageStreamImages(namespace).Get(name)] *)
Variable ImageStreamImages_Get :
  string -> string -> imagev1.ImageStreamImage + error.

(** The [%q] of a string. *)
Variable Quote : string -> string.

(** [imageResolutionCache.resolveImageStreamImage], the clock reading
    [now]. *)
Definition resolveImageStreamImage (c : imageResolutionCache) (now : Time)
  (namespace name id : string) : Resolution :=
  let attrs := rules.mkImagePolicyAttributes reference.zero None true false in
  match ImageStreamImages_Get namespace (JoinImageStreamImage name id) with
  | inr err => (Some attrs, Some err, c)
  | inl resolved =>
      let img := imagev1.StreamImage resolved in
      match Parse (imagev1.DockerImageReference img) with
      | inr err =>
          (Some attrs,
           Some (errorString
                   (String.append "ImageStreamTag could not be resolved: "
                      (Error err))),
           c)
      | inl ref =>
          let cache' :=
            lru.Add (imagev1.Name img)
              (mkImageCacheEntry (now + expiration c)%Z (Some img))
              (cache c) in
          (Some (rules.mkImagePolicyAttributes ref (Some img)
                   (rules.IntegratedRegistry attrs)
                   (rules.LocalRewrite attrs)),
           None, setCache c cache')
      end
  end.

(** [imageResolutionCache.ResolveObjectReference], the clock reading
    [now]. *)
Definition ResolveObjectReference (c : imageResolutionCache) (now : Time)
  (ref : kapi.ObjectReference) (defaultNamespace : string)
  (forceResolveLocalNames : bool) : Resolution :=
  if String.eqb (kapi.Kind ref) "ImageStreamTag" then
    let ns := if (GoString.len (kapi.Namespace ref) =? 0)%nat
              then defaultNamespace else kapi.Namespace ref in
    let '(name, tag, ok) := SplitImageStreamTag (kapi.Name ref) in
    if negb ok then
      (Some (rules.mkImagePolicyAttributes reference.zero None true false),
       Some (errorString
               "references of kind ImageStreamTag must be of the form NAME:TAG"),
       c)
    else resolveImageStreamTag Parse JoinImageStreamTag c now ns name tag
           false false
  else if String.eqb (kapi.Kind ref) "ImageStreamImage" then
    let ns := if (GoString.len (kapi.Namespace ref) =? 0)%nat
              then defaultNamespace else kapi.Namespace ref in
    let '(name, id, ok) := SplitImageStreamImage (kapi.Name ref) in
    if negb ok then
      (Some (rules.mkImagePolicyAttributes reference.zero None true false),
       Some (errorString
               "references of kind ImageStreamImage must be of the form NAME@DIGEST"),
       c)
    else resolveImageStreamImage c now ns name id
  else if String.eqb (kapi.Kind ref) "DockerImage" then
    match Parse (kapi.Name ref) with
    | inr err => (None, Some err, c)
    | inl ref =>
        resolveImageReference Parse Exact JoinImageStreamTag c now ref
          defaultNamespace forceResolveLocalNames
    end
  else
    (None,
     Some (errorString
             (String.append
                "image policy does not allow image references of kind "
                (Quote (kapi.Kind ref)))),
     c).

(** A request to the resolver: the clock reading at the call, the
    reference, the default namespace and the force flag. *)
Definition Request : Type := Time * kapi.ObjectReference * string * bool.

(** The resolver after a sequence of requests, each answered in turn. *)
Fixpoint serve (c : imageResolutionCache) (requests : list Request)
  : imageResolutionCache :=
  match requests with
  | [] => c
  | (now, ref, defaultNamespace, force) :: rest =>
      serve (snd (ResolveObjectReference c now ref defaultNamespace force))
        rest
  end.

End ObjectReferences.

(** *** The rest of resolutionConfig *)

Section ResolutionRequests.

(** The package-level [RequestsResolution(ImageResolutionType) bool] and
    [FailOnResolutionFailure(ImageResolutionType) bool], not among the
    sources. *)
Variable requestsFor : imagepolicyv1.ImageResolutionType -> bool.
Variable failsFor : imagepolicyv1.ImageResolutionType -> bool.

(** [resolutionConfig.RequestsResolution] *)
Definition RequestsResolution (config : imagepolicyv1.ImagePolicyConfig)
  (gr : metav1.GroupResource) : bool :=
  if requestsFor (imagepolicyv1.ResolveImages config) then true
  else
    existsb
      (fun rule =>
         resolutionRuleCoversResource (imagepolicyv1.TargetResource rule) gr)
      (imagepolicyv1.ResolutionRules config).

(** [resolutionConfig.FailOnResolutionFailure] *)
Definition FailOnResolutionFailure (config : imagepolicyv1.ImagePolicyConfig)
  (gr : metav1.GroupResource) : bool :=
  failsFor (imagepolicyv1.ResolveImages config).

End ResolutionRequests.



(** The cache holds no more entries than its size. *)
Definition withinSize (c : imageResolutionCache) : Prop :=
  (List.length (lru.items (cache c)) <= lru.size (cache c))%nat.

(** Every entry of the cache holds an image. *)
Definition holdsImages (c : imageResolutionCache) : Prop :=
  Forall (fun kv => image (snd kv) <> None) (lru.items (cache c)).

(** What every resolver reached from [newImageResolutionCache] satisfies. *)
Definition wellFormed (c : imageResolutionCache) : Prop :=
  asBuilt c /\ withinSize c /\ holdsImages c.

(** Two resolvers whose caches answer every key alike. *)
Definition sameContent (c c' : imageResolutionCache) : Prop :=
  forall k, lru.Peek k (cache c') = lru.Peek k (cache c).

(** What every resolution answers, [c] the resolver before the call:
    never nothing at all; with an error, no image, and the cache holds
    what it held; without an error, attributes that carry an image or are
    marked as a local rewrite. *)
Definition answered (c : imageResolutionCache) (r : Resolution) : Prop :=
  wellFormed (snd r) /\
  match fst r with
  | (None, None) => False
  | (None, Some _) => sameContent c (snd r)
  | (Some attrs, Some _) =>
      rules.Image attrs = None /\ sameContent c (snd r)
  | (Some attrs, None) =>
      rules.Image attrs <> None \/ rules.LocalRewrite attrs = true
  end.

(** Whether [resolveImageReference] takes a reference without a digest
    for an image stream tag: its registry is the integrated one, or local
    names are forced, or it is a single name. *)
Definition resolvable (c : imageResolutionCache)
  (ref : reference.DockerImageReference) (forceResolveLocalNames : bool)
  : bool :=
  integrated c (reference.Registry ref) ||
  (forceResolveLocalNames ||
   ((GoString.len (reference.Registry ref) =? 0)%nat &&
    (GoString.len (reference.Namespace ref) =? 0)%nat &&
    (0 <? GoString.len (reference.Name ref))%nat)).

(** More collaborators for the examples: the split functions on the names
    the examples use, an image stream image, and a plain quoting. *)
Module MoreExamples.

Definition SplitImageStreamTag (s : string) : string * string * bool :=
  if String.eqb s "test:other" then ("test", "other", true)
  else if String.eqb s "mysql:goodtag" then ("mysql", "goodtag", true)
  else (EmptyString, EmptyString, false).

Definition SplitImageStreamImage (s : string) : string * string * bool :=
  if String.eqb s (String.append "mysql@" Examples.goodSHA)
  then ("mysql", Examples.goodSHA, true)
  else (EmptyString, EmptyString, false).

Definition JoinImageStreamImage (name id : string) : string :=
  String.append name (String.append "@" id).

Definition ImageStreamImages_Get (ns name : string)
  : imagev1.ImageStreamImage + error :=
  if String.eqb name (String.append "mysql@" Examples.goodSHA)
  then inl (imagev1.mkImageStreamImage Examples.goodImage)
  else inr (Examples.notFound "imagestreamimages" name).

Definition Quote (s : string) : string := s.

(** The image API of [Examples] with the tag [mysql:goodtag] bound to the
    good image in every namespace. *)
Definition clientWithTag : ImageV1Interface :=
  mkImageV1Interface (Images_Get Examples.client)
    (fun ns name =>
       if String.eqb name "mysql:goodtag"
       then inl (imagev1.mkImageStreamTag false Examples.goodImage)
       else inr (Examples.notFound "imagestreamtags" name))
    (ImageStreams_Get Examples.client).

(** A parser that also knows the good image's pull spec. *)
Definition Parse (s : string) : reference.DockerImageReference + error :=
  if String.eqb s "integrated.registry/goodns/goodimage:good"
  then inl (reference.mkDockerImageReference
              "integrated.registry" "goodns" "goodimage" "good" "")
  else if String.eqb s "mysql"
  then inl (reference.mkDockerImageReference "" "" "mysql" "" "")
  else if String.eqb s "docker.io/library/mysql"
  then inl (reference.mkDockerImageReference
              "docker.io" "library" "mysql" "" "")
  else Examples.Parse s.

Definition resolver : imageResolutionCache :=
  newImageResolutionCache clientWithTag Examples.integratedRegistry.

(** [ResolveObjectReference] with these collaborators. *)
Definition resolve : imageResolutionCache -> Time -> kapi.ObjectReference ->
                     string -> bool -> Resolution :=
  ResolveObjectReference Parse Examples.Exact Examples.JoinImageStreamTag
    JoinImageStreamImage SplitImageStreamTag SplitImageStreamImage
    ImageStreamImages_Get Quote.

Definition objectReference (kind namespace name : string)
  : kapi.ObjectReference :=
  kapi.mkObjectReference kind namespace name "" "" "" "".

(** A [requestsFor] for the examples, as the package's test of the
    configuration expects it: every policy but [DoNotAttempt] asks for the
    resolution. *)
Definition resolvingPolicy (t : imagepolicyv1.ImageResolutionType) : bool :=
  negb (String.eqb t imagepolicyv1.DoNotAttempt).


End MoreExamples.

End ImagePolicy.

(** * Properties *)

Module GoStringFacts.

Import GoString.

Lemma lt_false_le (a b : string) : lt b a = false <-> le a b = true.
Proof.
  unfold lt, le, String.ltb, String.leb.
  rewrite (String.compare_antisym a b).
  destruct (String.compare b a); simpl; split; congruence.
Qed.

Lemma compare_lt_trans (a : string) :
  forall b c,
    String.compare a b = Lt -> String.compare b c = Lt ->
    String.compare a c = Lt.
Proof.
  induction a as [|x a IH]; intros [|y b] [|z c]; simpl; try congruence.
  unfold Ascii.compare.
  destruct (N.compare_spec (N_of_ascii x) (N_of_ascii y)); try discriminate;
  destruct (N.compare_spec (N_of_ascii y) (N_of_ascii z)); try discriminate;
  destruct (N.compare_spec (N_of_ascii x) (N_of_ascii z));
  try lia; try congruence; eauto.
Qed.

Lemma compare_refl (a : string) : String.compare a a = Eq.
Proof.
  pose proof (String.compare_antisym a a) as H.
  destruct (String.compare a a); [reflexivity| |]; discriminate.
Qed.

Lemma lt_le (a b : string) : lt a b = true -> le a b = true.
Proof.
  unfold lt, le, String.ltb, String.leb.
  destruct (String.compare a b); congruence.
Qed.

Lemma le_trans (a b c : string) :
  le a b = true -> le b c = true -> le a c = true.
Proof.
  unfold le, String.leb.
  destruct (String.compare a b) eqn:Hab; try discriminate;
  destruct (String.compare b c) eqn:Hbc; try discriminate; intros _ _.
  - apply String.compare_eq_iff in Hab, Hbc. subst. now rewrite compare_refl.
  - apply String.compare_eq_iff in Hab. subst. now rewrite Hbc.
  - apply String.compare_eq_iff in Hbc. subst. now rewrite Hab.
  - now rewrite (compare_lt_trans _ _ _ Hab Hbc).
Qed.

Lemma len_zero (s : string) : len s = 0%nat <-> s = EmptyString.
Proof. destruct s; simpl; split; congruence. Qed.



End GoStringFacts.

Module ClusterResourceQuotaFacts.

Import ClusterResourceQuota.

(** *** Lock order *)

Section LockLoops.

Variable Locker : Type.
Variable GetLock : string -> Locker.

Lemma acquire_spec (quotas : list ResourceQuota) :
  forall locks trace,
    acquire GetLock quotas locks trace =
    (locks ++ map (fun q => GetLock (Name q)) quotas,
     trace ++ map (fun q => Lock (GetLock (Name q))) quotas).
Proof.
  induction quotas as [|q rest IH]; intros locks trace; simpl.
  - now rewrite !app_nil_r.
  - rewrite IH, <- !app_assoc. reflexivity.
Qed.

Lemma unlock_down_app (locks more : list Locker) :
  forall n, (n <= List.length locks)%nat ->
    unlock_down (locks ++ more) n = unlock_down locks n.
Proof.
  induction n as [|i IH]; intros Hn; simpl; [reflexivity|].
  rewrite nth_error_app1 by lia.
  destruct (nth_error locks i); [|reflexivity].
  rewrite IH by lia. reflexivity.
Qed.

Lemma unlock_down_rev (locks : list Locker) :
  unlock_down locks (List.length locks) = map Unlock (rev locks).
Proof.
  induction locks as [|x l IH] using rev_ind; [reflexivity|].
  rewrite length_app, Nat.add_comm. simpl.
  rewrite nth_error_app2, Nat.sub_diag by lia. simpl.
  rewrite unlock_down_app by lia.
  rewrite rev_app_distr. simpl. now rewrite IH.
Qed.

End LockLoops.

Lemma sorted_names (l : list ResourceQuota) :
  StronglySorted (fun a b => Less b a = false) l ->
  StronglySorted (fun a b => GoString.le a b = true) (map Name l).
Proof.
  induction 1 as [|q l Hs IH Hall]; simpl; constructor; [exact IH|].
  rewrite Forall_map.
  revert Hall. apply Forall_impl. intros b Hb.
  now apply GoStringFacts.lt_false_le.
Qed.

Lemma insert_by_name_perm (q : ResourceQuota) (l : list ResourceQuota) :
  Permutation (insert_by_name q l) (q :: l).
Proof.
  induction l as [|x rest IH]; simpl; [reflexivity|].
  destruct (Less x q); [|reflexivity].
  rewrite IH. apply perm_swap.
Qed.

Lemma insertion_sort_perm (l : list ResourceQuota) :
  Permutation (insertion_sort l) l.
Proof.
  induction l as [|x rest IH]; simpl; [reflexivity|].
  rewrite insert_by_name_perm. now constructor.
Qed.

Lemma Less_false_trans (a b c : ResourceQuota) :
  Less b a = false -> Less c b = false -> Less c a = false.
Proof.
  unfold Less. rewrite !GoStringFacts.lt_false_le.
  apply GoStringFacts.le_trans.
Qed.

Lemma insert_by_name_sorted (q : ResourceQuota) (l : list ResourceQuota) :
  StronglySorted (fun a b => Less b a = false) l ->
  StronglySorted (fun a b => Less b a = false) (insert_by_name q l).
Proof.
  induction 1 as [|x rest Hs IH Hall]; simpl.
  - repeat constructor.
  - destruct (Less x q) eqn:Hxq.
    + constructor; [exact IH|].
      rewrite (insert_by_name_perm q rest). constructor; [|exact Hall].
      unfold Less in *. apply GoStringFacts.lt_false_le.
      apply GoStringFacts.lt_le. exact Hxq.
    + constructor; [now constructor|].
      constructor; [exact Hxq|].
      revert Hall. apply Forall_impl. intros b Hb.
      eapply Less_false_trans; eassumption.
Qed.

Lemma insertion_sort_sorted (l : list ResourceQuota) :
  StronglySorted (fun a b => Less b a = false) (insertion_sort l).
Proof.
  induction l as [|x rest IH]; simpl; [constructor|].
  now apply insert_by_name_sorted.
Qed.

Lemma lock_run_app (es1 es2 : list (LockEvent string)) :
  forall held,
    lock_run held (es1 ++ es2) =
    match lock_run held es1 with
    | Some held' => lock_run held' es2
    | None => None
    end.
Proof.
  induction es1 as [|e es1 IH]; intros held; simpl; [reflexivity|].
  destruct (lock_step held e); [apply IH|reflexivity].
Qed.

Lemma held_by_app (l : string) (h1 h2 : list string) :
  held_by l (h1 ++ h2) = held_by l h1 || held_by l h2.
Proof. apply existsb_app. Qed.

Lemma held_by_false_iff (l : string) (held : list string) :
  held_by l held = false <-> ~ In l held.
Proof.
  unfold held_by. split.
  - intros H Hin.
    assert (existsb (String.eqb l) held = true)
      by (apply existsb_exists; exists l; split;
          [exact Hin | apply String.eqb_refl]).
    congruence.
  - intros Hnin. destruct (existsb (String.eqb l) held) eqn:E; [|reflexivity].
    apply existsb_exists in E. destruct E as (k & Hk & Heq).
    apply String.eqb_eq in Heq. subst k. contradiction.
Qed.

Lemma filter_not_held (l : string) (held : list string) :
  held_by l held = false ->
  filter (fun k => negb (String.eqb l k)) held = held.
Proof.
  induction held as [|k held IH]; simpl; [reflexivity|].
  destruct (String.eqb l k); simpl; [discriminate|].
  intros H. now rewrite IH.
Qed.

(** Free locks, all different, can be taken one after the other. *)
Lemma lock_all (names : list string) :
  forall held,
    NoDup names ->
    (forall n, In n names -> held_by n held = false) ->
    lock_run held (map Lock names) = Some (rev names ++ held).
Proof.
  induction names as [|n rest IH]; intros held Hnd Hfree; simpl;
    [reflexivity|].
  rewrite (Hfree n (or_introl eq_refl)).
  inversion Hnd as [|? ? Hnin Hnd']; subst.
  rewrite IH; [now rewrite <- app_assoc | exact Hnd' |].
  intros m Hm. simpl.
  rewrite (Hfree m (or_intror Hm)), orb_false_r.
  apply String.eqb_neq. intros ->. contradiction.
Qed.

(** Held locks, all different, are given back one after the other. *)
Lemma unlock_all (names : list string) :
  forall held,
    NoDup names ->
    (forall n, In n names -> held_by n held = false) ->
    lock_run (names ++ held) (map Unlock names) = Some held.
Proof.
  induction names as [|n rest IH]; intros held Hnd Hfree; simpl;
    [reflexivity|].
  inversion Hnd as [|? ? Hnin Hnd']; subst.
  unfold held_by at 1. simpl. rewrite String.eqb_refl. simpl.
  rewrite filter_not_held.
  - apply IH; [exact Hnd'|]. intros m Hm. apply Hfree. now right.
  - rewrite held_by_app, (Hfree n (or_introl eq_refl)), orb_false_r.
    now apply held_by_false_iff.
Qed.

Section LockOrder.

Variable Locker : Type.
Variable GetLock : string -> Locker.
Variable sort_Sort : list ResourceQuota -> list ResourceQuota.

Hypothesis sort_Sort_perm :
  forall l, Permutation (sort_Sort l) l.

Hypothesis sort_Sort_sorted :
  forall l, StronglySorted (fun a b => Less b a = false) (sort_Sort l).

(** C1: for every list of quota documents, [lockAquisition] takes the
    documents' locks in ascending order of name (the names taken are the
    names passed, rearranged so that each is at most every later one), and
    the release function it returns unlocks the same locks in exactly the
    reverse of the order they were taken in. *)
Theorem lockAquisition_ascending_then_reverse (quotas : list ResourceQuota) :
  exists names : list string,
    Permutation names (map Name quotas) /\
    StronglySorted (fun a b => GoString.le a b = true) names /\
    fst (lockAquisition GetLock sort_Sort quotas)
      = map Lock (map GetLock names) /\
    snd (lockAquisition GetLock sort_Sort quotas) tt
      = map Unlock (rev (map GetLock names)).
Proof.
  exists (map Name (sort_Sort quotas)).
  split; [apply Permutation_map, sort_Sort_perm|].
  split; [apply sorted_names, sort_Sort_sorted|].
  unfold lockAquisition. rewrite acquire_spec. simpl.
  rewrite unlock_down_rev, !map_map. split; reflexivity.
Qed.

End LockOrder.

(** X3: on a table of mutexes, one per name: when the documents have
    different names and none of their locks is held, [lockAquisition]
    returns, and after the release function has run the table is as it
    was before the call. *)
Lemma lockAquisition_then_release_balanced
  (sort_Sort : list ResourceQuota -> list ResourceQuota)
  (quotas : list ResourceQuota) (held : list string) :
  (forall l, Permutation (sort_Sort l) l) ->
  NoDup (map Name quotas) ->
  (forall q, In q quotas -> held_by (Name q) held = false) ->
  lock_run held
    (fst (lockAquisition DefaultLockFactory_GetLock sort_Sort quotas) ++
     snd (lockAquisition DefaultLockFactory_GetLock sort_Sort quotas) tt)
  = Some held.
Proof.
  intros sort_Sort_perm Hnd Hfree.
  unfold lockAquisition. rewrite acquire_spec. simpl.
  rewrite unlock_down_rev, lock_run_app.
  set (names := map (fun q => DefaultLockFactory_GetLock (Name q))
                  (sort_Sort quotas)).
  assert (Hperm : Permutation names (map Name quotas))
    by (apply (Permutation_map Name), sort_Sort_perm).
  assert (Hnd' : NoDup names)
    by (eapply Permutation_NoDup; [symmetry; exact Hperm | exact Hnd]).
  assert (Hfree' : forall n, In n names -> held_by n held = false).
  { intros n Hn. apply (Permutation_in _ Hperm) in Hn.
    apply in_map_iff in Hn. destruct Hn as (q & <- & Hq). now apply Hfree. }
  replace (map (fun q => Lock (DefaultLockFactory_GetLock (Name q)))
             (sort_Sort quotas))
    with (map Lock names) by (unfold names; now rewrite map_map).
  rewrite (lock_all names held Hnd' Hfree').
  apply unlock_all.
  - now apply NoDup_rev.
  - intros n Hn. apply Hfree'. now apply in_rev.
Qed.

Lemma lockAquisition_ascending_then_reverse_witness :
  exists names : list string,
    Permutation names
      (map Name exampleQuotas) /\
    StronglySorted (fun a b => GoString.le a b = true) names /\
    fst (lockAquisition DefaultLockFactory_GetLock insertion_sort
           exampleQuotas)
      = map Lock (map DefaultLockFactory_GetLock names) /\
    snd (lockAquisition DefaultLockFactory_GetLock insertion_sort
           exampleQuotas) tt
      = map Unlock (rev (map DefaultLockFactory_GetLock names)).
Proof.
  exact (lockAquisition_ascending_then_reverse
           string DefaultLockFactory_GetLock
           insertion_sort insertion_sort_perm insertion_sort_sorted
           exampleQuotas).
Defined.

(** On the example the locks go default, team-a, team-b and come back
    team-b, team-a, default. *)
Example lockAquisition_example_trace :
  let '(taken, release) :=
    lockAquisition DefaultLockFactory_GetLock insertion_sort
      exampleQuotas in
  taken = [Lock "default"; Lock "team-a"; Lock "team-b"] /\
  release tt = [Unlock "team-b"; Unlock "team-a"; Unlock "default"].
Proof. split; reflexivity. Qed.

(** *** Waiting for the caches *)

Ltac tz := unfold Time, pollInterval, timeToWaitForCacheSync, Second,
             Millisecond in *; lia.

Section WaitLemmas.

Variable clusterQuotaSynced : Time -> bool.
Variable namespaceSynced : Time -> bool.
Variable tie : Time -> bool.

Lemma waitForSyncedStore_returns (fuel : nat) :
  forall (deadline : Time) (w : World),
    (clock w <= deadline)%Z ->
    (deadline - clock w + 2 * pollInterval
     <= Z.of_nat fuel * pollInterval)%Z ->
    exists r w',
      waitForSyncedStore clusterQuotaSynced namespaceSynced tie
        fuel deadline w = Some (r, w') /\
      wait_result clusterQuotaSynced namespaceSynced deadline w r w'.
Proof.
  induction fuel as [|fuel IH]; intros deadline w Hle Hfuel.
  - exfalso. unfold pollInterval, Millisecond in Hfuel. lia.
  - cbn [waitForSyncedStore].
    destruct (negb (clusterQuotaSynced (clock w)) ||
              negb (namespaceSynced (clock w))) eqn:Hnot.
    + assert (Hnow : synced clusterQuotaSynced namespaceSynced (clock w)
                     = false).
      { unfold synced. destruct (clusterQuotaSynced (clock w)),
          (namespaceSynced (clock w)); simpl in *; congruence. }
      unfold select.
      destruct (clock w + pollInterval <? deadline)%Z eqn:Htick;
        [apply Z.ltb_lt in Htick | apply Z.ltb_ge in Htick].
      * (* the poll timer fires first *)
        destruct (IH deadline
                    (mkWorld (clock w + pollInterval)%Z (initDone w)
                       (trace w ++ [EvPollSynced (clock w)])))
          as (r & w' & Hrun & Hres).
        { cbn [clock]. tz. }
        { simpl. tz. }
        exists r, w'. split; [exact Hrun|].
        destruct Hres as [Ha Hb Hf Hg H1 Hi Ht].
        cbn [clock initDone trace] in *.
        constructor; auto.
        -- tz.
        -- destruct Hg as [(k & Hk & Hg)|Hg]; [left|now right].
           exists (k + 1)%Z. split; [lia|]. rewrite Hg. tz.
        -- intros j Hj Hlt.
           destruct (Z.eq_dec j 0) as [->|Hne].
           ++ now rewrite Z.mul_0_l, Z.add_0_r.
           ++ replace (clock w + j * pollInterval)%Z
                with (clock w + pollInterval + (j - 1) * pollInterval)%Z
                by tz.
              apply H1; [lia|].
              replace (clock w + pollInterval + (j - 1) * pollInterval)%Z
                with (clock w + j * pollInterval)%Z by tz.
              exact Hlt.
        -- destruct Ht as (polls & Ht & Hno).
           exists (EvPollSynced (clock w) :: polls).
           split; [rewrite Ht, <- app_assoc; reflexivity | exact Hno].
      * destruct (deadline <? clock w + pollInterval)%Z eqn:Hpast;
          [apply Z.ltb_lt in Hpast | apply Z.ltb_ge in Hpast].
        -- (* the timeout fires first *)
           rewrite Z.max_r by lia.
           eexists _, _. split; [reflexivity|].
           constructor; simpl; auto.
           ++ lia.
           ++ intros j Hj Hlt.
              assert (j = 0)%Z as ->
                by tz.
              now rewrite Z.mul_0_l, Z.add_0_r.
           ++ exists [EvPollSynced (clock w); EvPollSynced deadline].
              split; [now rewrite <- app_assoc | reflexivity].
        -- (* both fire at the same instant *)
           assert (Heq : (clock w + pollInterval)%Z = deadline) by lia.
           destruct (tie (clock w + pollInterval)%Z).
           ++ eexists _, _. split; [reflexivity|].
              constructor; simpl; auto.
              ** lia.
              ** intros j Hj Hlt.
                 assert (j = 0)%Z as ->
                   by tz.
                 now rewrite Z.mul_0_l, Z.add_0_r.
              ** exists [EvPollSynced (clock w); EvPollSynced deadline].
                 split; [now rewrite <- app_assoc | reflexivity].
           ++ destruct (IH deadline
                          (mkWorld (clock w + pollInterval)%Z (initDone w)
                             (trace w ++ [EvPollSynced (clock w)])))
                as (r & w' & Hrun & Hres).
              { cbn [clock]. tz. }
              { simpl. tz. }
              exists r, w'. split; [exact Hrun|].
              destruct Hres as [Ha Hb Hf Hg H1 Hi Ht].
        cbn [clock initDone trace] in *.
              constructor; auto.
              ** tz.
              ** now right; lia.
              ** intros j Hj Hlt.
                 assert (j = 0)%Z as ->
                   by tz.
                 now rewrite Z.mul_0_l, Z.add_0_r.
              ** destruct Ht as (polls & Ht & Hno).
                 exists (EvPollSynced (clock w) :: polls).
                 split; [rewrite Ht, <- app_assoc; reflexivity | exact Hno].
    + (* both caches are in sync *)
      assert (Hnow : synced clusterQuotaSynced namespaceSynced (clock w)
                     = true).
      { unfold synced. destruct (clusterQuotaSynced (clock w)),
          (namespaceSynced (clock w)); simpl in *; congruence. }
      eexists _, _. split; [reflexivity|].
      constructor; simpl; auto.
      * lia.
      * congruence.
      * left. exists 0%Z. split; [lia|tz].
      * intros j Hj Hlt. tz.
      * exists [EvPollSynced (clock w)]. split; reflexivity.
Qed.

End WaitLemmas.

Lemma existsb_false_filter (A : Type) (f : A -> bool) (l : list A) :
  existsb f l = false -> filter f l = [].
Proof.
  induction l as [|x l IH]; simpl; [reflexivity|].
  destruct (f x); simpl; [discriminate|exact IH].
Qed.

Lemma initOnce_trace (w : World) :
  clock (initOnce w) = clock w /\
  exists evs, trace (initOnce w) = trace w ++ evs /\
              existsb is_evaluate evs = false.
Proof.
  unfold initOnce. destruct (initDone w); simpl.
  - split; [reflexivity|]. exists []. now rewrite app_nil_r.
  - split; [reflexivity|]. exists [EvNewQuotaEvaluator]. now split.
Qed.

(** *** Validate *)

(** C2: on a namespaced operation on a resource itself, [Validate] returns,
    after polling the two caches every 100ms from the start for at most 10
    seconds.  It stops at the first poll that finds both caches in sync and
    then, and only then, hands the operation to the evaluator (once) and
    returns its answer; if the 10 seconds pass with the caches still out of
    sync it returns Forbidden "caches not synchronized" and the evaluator
    is never called. *)
Theorem Validate_waits_bounded_and_fails_closed
  (clusterQuotaSynced namespaceSynced tie : Time -> bool)
  (Evaluate : Attributes -> option error)
  (fuel : nat) (a : Attributes) (w : World) :
  (102 <= fuel)%nat ->
  GetSubresource a = "" ->
  GetNamespace a <> "" ->
  exists r w' events,
    Validate clusterQuotaSynced namespaceSynced tie Evaluate fuel a w
      = Some (r, w') /\
    trace w' = trace w ++ events /\
    (exists k : Z, 0 <= k <= 100 /\
                   clock w' = clock w + k * pollInterval)%Z /\
    (forall j : Z, (0 <= j)%Z ->
       (clock w + j * pollInterval < clock w')%Z ->
       synced clusterQuotaSynced namespaceSynced
         (clock w + j * pollInterval)%Z = false) /\
    (if synced clusterQuotaSynced namespaceSynced (clock w')
     then r = Evaluate a /\ filter is_evaluate events = [EvEvaluate a]
     else clock w' = (clock w + timeToWaitForCacheSync)%Z /\
          r = Some (Forbidden a "caches not synchronized") /\
          existsb is_evaluate events = false).
Proof.
  intros Hfuel Hsub Hns.
  unfold Validate. rewrite Hsub. simpl.
  destruct (GetNamespace a) as [|c ns] eqn:Ens; [congruence|]. simpl.
  destruct (waitForSyncedStore_returns clusterQuotaSynced namespaceSynced tie
              fuel (clock w + timeToWaitForCacheSync)%Z w)
    as (r & w1 & Hrun & Hres); [tz | tz |].
  rewrite Hrun.
  destruct Hres as [Ha Hb Hf Hg H1 Hi (polls & Ht & Hno)].
  assert (Hgrid : (exists k : Z, 0 <= k <= 100 /\
                     clock w1 = clock w + k * pollInterval)%Z).
  { destruct Hg as [(k & Hk & Hg)|Hg].
    - exists k. split; [tz|exact Hg].
    - exists 100%Z. split; [lia|tz]. }
  destruct r.
  - destruct (initOnce_trace w1) as (Hc & evs & Hevs & Hnoevs).
    eexists _, _, (polls ++ evs ++ [EvEvaluate a]).
    split; [reflexivity|]. cbn [clock trace].
    rewrite Hc, Hevs, Ht, <- Ha, <- !app_assoc.
    repeat split; auto.
    rewrite !filter_app, (existsb_false_filter _ _ _ Hno),
      (existsb_false_filter _ _ _ Hnoevs). reflexivity.
  - eexists _, _, polls.
    split; [reflexivity|]. rewrite <- Ha.
    repeat split; auto.
Qed.

Lemma Validate_waits_bounded_and_fails_closed_witness :
  exists r w' events,
    Validate (fun _ => false) (fun _ => true) (fun _ => true)
      (fun _ => None) 102 (mkAttributes Create "" "ns1" "pod1")
      (mkWorld 0%Z false [])
      = Some (r, w') /\
    trace w' = trace (mkWorld 0%Z false []) ++ events /\
    (exists k : Z, 0 <= k <= 100 /\
       clock w' = clock (mkWorld 0%Z false []) + k * pollInterval)%Z /\
    (forall j : Z, (0 <= j)%Z ->
       (clock (mkWorld 0%Z false []) + j * pollInterval < clock w')%Z ->
       synced (fun _ => false) (fun _ => true)
         (clock (mkWorld 0%Z false []) + j * pollInterval)%Z = false) /\
    (if synced (fun _ => false) (fun _ => true) (clock w')
     then r = (fun _ : Attributes => @None error)
                (mkAttributes Create "" "ns1" "pod1") /\
          filter is_evaluate events =
            [EvEvaluate (mkAttributes Create "" "ns1" "pod1")]
     else clock w' =
            (clock (mkWorld 0%Z false []) + timeToWaitForCacheSync)%Z /\
          r = Some (Forbidden (mkAttributes Create "" "ns1" "pod1")
                      "caches not synchronized") /\
          existsb is_evaluate events = false).
Proof.
  apply (Validate_waits_bounded_and_fails_closed
           (fun _ => false) (fun _ => true) (fun _ => true) (fun _ => None)
           102 (mkAttributes Create "" "ns1" "pod1") (mkWorld 0%Z false [])).
  - apply le_n.
  - reflexivity.
  - simpl. discriminate.
Defined.

(** The caches come into sync 250ms after the call: the fourth poll, at
    300ms, sees it and the evaluator runs. *)
Example Validate_synced_after_250ms :
  Validate (fun t => (250 * Millisecond <=? t)%Z) (fun _ => true)
    (fun _ => true) (fun _ => None) 102
    (mkAttributes Create "" "ns1" "pod1") (mkWorld 0%Z false [])
  = Some (None,
          mkWorld (300 * Millisecond)%Z true
            [EvPollSynced 0%Z; EvPollSynced (100 * Millisecond)%Z;
             EvPollSynced (200 * Millisecond)%Z;
             EvPollSynced (300 * Millisecond)%Z;
             EvNewQuotaEvaluator;
             EvEvaluate (mkAttributes Create "" "ns1" "pod1")]).
Proof. vm_compute. reflexivity. Qed.

(** The caches never come into sync: after 10 s the call is refused. *)
Example Validate_never_synced :
  match Validate (fun _ => true) (fun _ => false) (fun _ => true)
          (fun _ => None) 102
          (mkAttributes Update "" "ns1" "pod1") (mkWorld 0%Z false []) with
  | Some (r, w') =>
      r = Some (Forbidden (mkAttributes Update "" "ns1" "pod1")
                  "caches not synchronized") /\
      clock w' = (10 * Second)%Z /\ initDone w' = false /\
      List.length (trace w') = 101%nat
  | None => False
  end.
Proof. vm_compute. repeat split. Qed.

(** C8: an operation on a subresource, and an operation without a
    namespace, is accepted at once: [Validate] returns nil and leaves the
    plugin as it was: no cache is polled, no time passes, the evaluator is
    neither built nor called (so no lock is taken and no quota document is
    read). *)
Theorem Validate_ignores_subresources_and_cluster_scope
  (clusterQuotaSynced namespaceSynced tie : Time -> bool)
  (Evaluate : Attributes -> option error)
  (fuel : nat) (a : Attributes) (w : World) :
  GetSubresource a <> "" \/ GetNamespace a = "" ->
  Validate clusterQuotaSynced namespaceSynced tie Evaluate fuel a w
    = Some (None, w).
Proof.
  intros [Hsub|Hns]; unfold Validate.
  - destruct (GetSubresource a); [congruence|reflexivity].
  - rewrite Hns. destruct (GetSubresource a); reflexivity.
Qed.

Lemma Validate_ignores_subresources_and_cluster_scope_witness :
  Validate (fun _ => false) (fun _ => false) (fun _ => true)
    (fun _ => Some (EvaluatorError "exceeded quota")) 0
    (mkAttributes Update "status" "ns1" "pod1") (mkWorld 0%Z false [])
  = Some (None, mkWorld 0%Z false []).
Proof.
  apply (Validate_ignores_subresources_and_cluster_scope
           (fun _ => false) (fun _ => false) (fun _ => true)
           (fun _ => Some (EvaluatorError "exceeded quota")) 0
           (mkAttributes Update "status" "ns1" "pod1") (mkWorld 0%Z false [])).
  left. simpl. discriminate.
Defined.

(** *** More on the quota plugin *)

Lemma lockAquisition_then_release_balanced_witness :
  lock_run ["other"]
    (fst (lockAquisition DefaultLockFactory_GetLock insertion_sort
            exampleQuotas) ++
     snd (lockAquisition DefaultLockFactory_GetLock insertion_sort
            exampleQuotas) tt)
  = Some ["other"].
Proof.
  refine (lockAquisition_then_release_balanced insertion_sort exampleQuotas
            ["other"] insertion_sort_perm _ _).
  - repeat constructor; simpl; intuition discriminate.
  - intros q [<- | [<- | [<- | []]]]; reflexivity.
Defined.

Lemma lock_held_blocks (names : list string) (n : string) :
  forall held,
    In n names -> held_by n held = true ->
    lock_run held (map Lock names) = None.
Proof.
  induction names as [|m rest IH]; intros held Hin Hheld; [contradiction|].
  simpl. destruct (held_by m held) eqn:Hm; [reflexivity|].
  destruct Hin as [-> | Hin]; [congruence|].
  apply IH; [exact Hin|].
  unfold held_by in *. simpl. now rewrite Hheld, orb_true_r.
Qed.

Lemma duplicate_blocks (names : list string) :
  ~ NoDup names ->
  forall held, lock_run held (map Lock names) = None.
Proof.
  induction names as [|n rest IH]; intros Hdup held.
  - exfalso. apply Hdup. constructor.
  - simpl. destruct (held_by n held) eqn:Hn; [reflexivity|].
    destruct (in_dec string_dec n rest) as [Hin|Hnin].
    + apply (lock_held_blocks rest n); [exact Hin|].
      unfold held_by. simpl. now rewrite String.eqb_refl.
    + apply IH. intros Hnd. apply Hdup. now constructor.
Qed.

(** X4: on a table of mutexes, one per name: when two of the documents
    have the same name, [lockAquisition] does not return: the second
    [Lock] of that name waits for the first, whatever the table held. *)
Theorem lockAquisition_same_name_twice_blocks
  (sort_Sort : list ResourceQuota -> list ResourceQuota)
  (quotas : list ResourceQuota) (held : list string) :
  (forall l, Permutation (sort_Sort l) l) ->
  ~ NoDup (map Name quotas) ->
  lock_run held
    (fst (lockAquisition DefaultLockFactory_GetLock sort_Sort quotas))
  = None.
Proof.
  intros Hperm Hdup.
  unfold lockAquisition. rewrite acquire_spec. simpl.
  rewrite <- (map_map (fun q => DefaultLockFactory_GetLock (Name q)) Lock).
  apply duplicate_blocks. intros Hnd. apply Hdup.
  eapply Permutation_NoDup; [|exact Hnd].
  apply (Permutation_map Name), Hperm.
Qed.

Lemma lockAquisition_same_name_twice_blocks_witness :
  lock_run []
    (fst (lockAquisition DefaultLockFactory_GetLock insertion_sort
            [mkQuota "team-a" ""; mkQuota "default" "";
             mkQuota "team-a" "other"]))
  = None.
Proof.
  refine (lockAquisition_same_name_twice_blocks insertion_sort
            [mkQuota "team-a" ""; mkQuota "default" "";
             mkQuota "team-a" "other"] [] insertion_sort_perm _).
  simpl. intros Hnd. inversion Hnd as [|? ? Hnin _]; subst.
  apply Hnin. simpl. auto.
Defined.


Lemma length_assign (v : list ResourceQuota) :
  forall i x, List.length (assign v i x) = List.length v.
Proof.
  induction v as [|y v IH]; intros [|i] x; simpl; auto.
Qed.

Lemma nth_error_assign (v : list ResourceQuota) :
  forall i x k,
    (i < List.length v)%nat ->
    nth_error (assign v i x) k =
    if (k =? i)%nat then Some x else nth_error v k.
Proof.
  induction v as [|y v IH]; intros [|i] x [|k] Hi; simpl in *;
    try lia; try reflexivity.
  apply IH. lia.
Qed.

(** X1: [ByName.Swap] panics exactly when an index is out of range;
    otherwise it keeps the length, exchanges the elements at the two
    indices, leaves every other index alone, and done again gives the
    slice back. *)
Theorem ByName_Swap_exchanges (v : list ResourceQuota) (i j : nat) :
  match ByName_Swap v i j with
  | Some v' =>
      (i < ByName_Len v)%nat /\ (j < ByName_Len v)%nat /\
      ByName_Len v' = ByName_Len v /\
      nth_error v' i = nth_error v j /\
      nth_error v' j = nth_error v i /\
      (forall k, k <> i -> k <> j -> nth_error v' k = nth_error v k) /\
      ByName_Swap v' i j = Some v
  | None => (ByName_Len v <= i)%nat \/ (ByName_Len v <= j)%nat
  end.
Proof.
  unfold ByName_Swap, ByName_Len.
  destruct (nth_error v i) as [vi|] eqn:Ei;
    [|left; now apply nth_error_None].
  destruct (nth_error v j) as [vj|] eqn:Ej;
    [|right; now apply nth_error_None].
  assert (Hi : (i < List.length v)%nat)
    by (apply nth_error_Some; congruence).
  assert (Hj : (j < List.length v)%nat)
    by (apply nth_error_Some; congruence).
  assert (Hnth : forall k,
    nth_error (assign (assign v i vj) j vi) k =
    if (k =? j)%nat then Some vi
    else if (k =? i)%nat then Some vj else nth_error v k).
  { intros k. rewrite nth_error_assign by (now rewrite length_assign).
    destruct (k =? j)%nat; [reflexivity|].
    now apply nth_error_assign. }
  assert (Hi' : nth_error (assign (assign v i vj) j vi) i = Some vj).
  { rewrite Hnth, Nat.eqb_refl.
    destruct (i =? j)%nat eqn:E; [|reflexivity].
    apply Nat.eqb_eq in E. subst j. congruence. }
  assert (Hj' : nth_error (assign (assign v i vj) j vi) j = Some vi)
    by (now rewrite Hnth, Nat.eqb_refl).
  rewrite Hi', Hj'.
  repeat split; try assumption.
  - now rewrite !length_assign.
  - intros k Hki Hkj. rewrite Hnth.
    apply Nat.eqb_neq in Hki, Hkj. now rewrite Hki, Hkj.
  - f_equal. apply nth_error_ext. intros k.
    rewrite nth_error_assign by (now rewrite !length_assign).
    destruct (k =? j)%nat eqn:Ekj.
    + apply Nat.eqb_eq in Ekj. subst k. now rewrite Ej.
    + rewrite nth_error_assign by (now rewrite !length_assign).
      destruct (k =? i)%nat eqn:Eki.
      * apply Nat.eqb_eq in Eki. subst k. now rewrite Ei.
      * rewrite Hnth, Ekj, Eki. reflexivity.
Qed.

(** X2: [ByName.Less] is the strict weak ordering [sort.Sort] asks for: no
    document is less than itself, less is asymmetric and transitive, not
    being less is transitive, and two documents are each not less than
    the other exactly when they have the same name. *)
Theorem ByName_Less_strict_weak_ordering (a b c : ResourceQuota) :
  Less a a = false /\
  (Less a b = true -> Less b a = false) /\
  (Less a b = true -> Less b c = true -> Less a c = true) /\
  (Less a b = false -> Less b c = false -> Less a c = false) /\
  (Less a b = false /\ Less b a = false <-> Name a = Name b).
Proof.
  unfold Less, GoString.lt, String.ltb.
  split; [now rewrite GoStringFacts.compare_refl|].
  split.
  { rewrite (String.compare_antisym (Name a) (Name b)).
    destruct (String.compare (Name b) (Name a)); simpl; congruence. }
  split.
  { destruct (String.compare (Name a) (Name b)) eqn:Hab; try discriminate.
    destruct (String.compare (Name b) (Name c)) eqn:Hbc; try discriminate.
    now rewrite (GoStringFacts.compare_lt_trans _ _ _ Hab Hbc). }
  split.
  { intros Hab Hbc.
    apply (Less_false_trans c b a); assumption. }
  split.
  - intros [Hab Hba].
    rewrite (String.compare_antisym (Name b) (Name a)) in Hba.
    destruct (String.compare (Name a) (Name b)) eqn:E;
      simpl in *; try discriminate.
    now apply String.compare_eq_iff.
  - intros ->. now rewrite GoStringFacts.compare_refl.
Qed.

Section MoreOnValidate.

Variable clusterQuotaSynced : Time -> bool.
Variable namespaceSynced : Time -> bool.
Variable tie : Time -> bool.
Variable Evaluate : Attributes -> option error.

(** X5: caches that stay in sync once they are, and are in sync at some
    instant [T] of the ten seconds: [Validate] hands the operation to the
    evaluator, and does so less than one poll interval after [T]. *)
Theorem Validate_notices_sync_within_one_poll
  (fuel : nat) (a : Attributes) (w : World) (T : Time) :
  (102 <= fuel)%nat ->
  GetSubresource a = "" ->
  GetNamespace a <> "" ->
  (forall t t' : Time,
     (t <= t')%Z ->
     synced clusterQuotaSynced namespaceSynced t = true ->
     synced clusterQuotaSynced namespaceSynced t' = true) ->
  (clock w <= T <= clock w + timeToWaitForCacheSync)%Z ->
  synced clusterQuotaSynced namespaceSynced T = true ->
  exists w',
    Validate clusterQuotaSynced namespaceSynced tie Evaluate fuel a w
      = Some (Evaluate a, w') /\
    (clock w <= clock w' < T + pollInterval)%Z.
Proof.
  intros Hfuel Hsub Hns Hmono HT Hsync.
  unfold Validate. rewrite Hsub. simpl.
  destruct (GetNamespace a) as [|ch ns] eqn:Ens; [congruence|]. simpl.
  destruct (waitForSyncedStore_returns clusterQuotaSynced namespaceSynced tie
              fuel (clock w + timeToWaitForCacheSync)%Z w)
    as (r & w1 & Hrun & Hres); [tz | tz |].
  rewrite Hrun.
  destruct Hres as [Ha Hb Hf Hg H1 Hi _].
  assert (Hr : r = true).
  { destruct r; [reflexivity|].
    rewrite (Hf eq_refl) in Ha.
    rewrite (Hmono T _ (proj2 HT) Hsync) in Ha. discriminate. }
  rewrite Hr.
  destruct (initOnce_trace w1) as (Hc & _).
  eexists. split; [reflexivity|]. cbn [clock]. rewrite Hc.
  split; [tz|].
  destruct (Z_lt_ge_dec (clock w1) (T + pollInterval)) as [Hlt|Hge];
    [exact Hlt|exfalso].
  pose (j := ((T - clock w + pollInterval - 1) / pollInterval)%Z).
  assert (Hj : (0 <= j /\ T <= clock w + j * pollInterval < T + pollInterval)%Z).
  { unfold j, Time, pollInterval, timeToWaitForCacheSync, Second,
      Millisecond in *.
    pose proof (Z.div_mod (T - clock w + 100 * 1000000 - 1) (100 * 1000000)).
    pose proof (Z.mod_pos_bound (T - clock w + 100 * 1000000 - 1)
                  (100 * 1000000)).
    lia. }
  assert (Hfalse : synced clusterQuotaSynced namespaceSynced
                     (clock w + j * pollInterval)%Z = false)
    by (apply H1; lia).
  rewrite (Hmono T _ (proj1 (proj2 Hj)) Hsync) in Hfalse. discriminate.
Qed.

Lemma waitForSyncedStore_polls (fuel : nat) :
  forall deadline w r w',
    waitForSyncedStore clusterQuotaSynced namespaceSynced tie
      fuel deadline w = Some (r, w') ->
    initDone w' = initDone w /\
    exists polls, trace w' = trace w ++ polls /\
                  forallb is_poll polls = true.
Proof.
  induction fuel as [|fuel IH]; intros deadline w r w' Hrun;
    [discriminate|].
  cbn [waitForSyncedStore] in Hrun.
  destruct (negb (clusterQuotaSynced (clock w)) ||
            negb (namespaceSynced (clock w))).
  - destruct (select tie (clock w) deadline) as [[|] t].
    + apply IH in Hrun. cbn [initDone trace] in Hrun.
      destruct Hrun as (Hi & polls & Ht & Hp). split; [exact Hi|].
      exists (EvPollSynced (clock w) :: polls).
      split; [rewrite Ht, <- app_assoc; reflexivity | exact Hp].
    + injection Hrun as <- <-. split; [reflexivity|].
      exists [EvPollSynced (clock w); EvPollSynced t].
      cbn [trace]. now rewrite <- app_assoc.
  - injection Hrun as <- <-. split; [reflexivity|].
    exists [EvPollSynced (clock w)]. now split.
Qed.

Lemma builds_then_evaluates_app (tr1 tr2 : list Event) :
  forall built,
    builds_then_evaluates built (tr1 ++ tr2) =
    builds_then_evaluates built tr1 &&
    builds_then_evaluates (built || existsb is_new_evaluator tr1) tr2.
Proof.
  induction tr1 as [|e tr1 IH]; intros built; simpl.
  - now rewrite orb_false_r.
  - destruct e; simpl.
    + apply IH.
    + rewrite IH, orb_true_r. simpl. now rewrite andb_assoc.
    + rewrite IH, andb_assoc. reflexivity.
Qed.

Lemma polls_build_nothing (polls : list Event) :
  forallb is_poll polls = true ->
  existsb is_new_evaluator polls = false /\
  forall built, builds_then_evaluates built polls = true.
Proof.
  induction polls as [|e polls IH]; simpl; [now split|].
  destruct e; simpl; try discriminate. exact IH.
Qed.

Lemma Validate_keeps_built_once (fuel : nat) (a : Attributes) (w : World)
  (r : option error) (w' : World) :
  built_once w ->
  Validate clusterQuotaSynced namespaceSynced tie Evaluate fuel a w
    = Some (r, w') ->
  built_once w'.
Proof.
  intros (Hinit & Horder) Hrun.
  unfold Validate in Hrun.
  destruct (negb (GoString.len (GetSubresource a) =? 0)%nat);
    [injection Hrun as <- <-; now split|].
  destruct (GoString.len (GetNamespace a) =? 0)%nat;
    [injection Hrun as <- <-; now split|].
  destruct (waitForSyncedStore clusterQuotaSynced namespaceSynced tie fuel
              (clock w + timeToWaitForCacheSync)%Z w)
    as [[[|] w1]|] eqn:Hwait; [| |discriminate];
    apply waitForSyncedStore_polls in Hwait;
    destruct Hwait as (Hi & polls & Ht & Hp);
    destruct (polls_build_nothing polls Hp) as (Hnone & Hpolls);
    injection Hrun as <- <-; unfold built_once.
  - unfold initOnce. rewrite Hi.
    destruct (initDone w) eqn:Hd; cbn [trace initDone]; rewrite ?Hi, Ht.
    + rewrite !builds_then_evaluates_app, !existsb_app, <- !Hinit, Horder,
        Hpolls, !Hnone.
      simpl. now split.
    + rewrite !builds_then_evaluates_app, !existsb_app, <- !Hinit, Horder,
        Hpolls, !Hnone.
      simpl. now split.
  - rewrite Hi, Ht, builds_then_evaluates_app, !existsb_app, <- !Hinit,
      Horder, Hpolls, Hnone, orb_false_r.
    now split.
Qed.

Lemma Validate_returns (fuel : nat) (a : Attributes) (w : World) :
  (102 <= fuel)%nat ->
  exists r w',
    Validate clusterQuotaSynced namespaceSynced tie Evaluate fuel a w
      = Some (r, w').
Proof.
  intros Hfuel. unfold Validate.
  destruct (negb (GoString.len (GetSubresource a) =? 0)%nat);
    [now eexists _, _|].
  destruct (GoString.len (GetNamespace a) =? 0)%nat; [now eexists _, _|].
  destruct (waitForSyncedStore_returns clusterQuotaSynced namespaceSynced tie
              fuel (clock w + timeToWaitForCacheSync)%Z w)
    as (r & w1 & Hrun & _); [tz | tz |].
  rewrite Hrun. destruct r; now eexists _, _.
Qed.

Lemma ValidateAll_keeps_built_once (fuel : nat)
  (requests : list Attributes) :
  (102 <= fuel)%nat ->
  forall w : World,
    built_once w ->
    exists results w',
      ValidateAll clusterQuotaSynced namespaceSynced tie Evaluate fuel
        requests w = Some (results, w') /\
      List.length results = List.length requests /\ built_once w'.
Proof.
  intros Hfuel.
  induction requests as [|a rest IH]; intros w Hw.
  - exists [], w. split; [reflexivity|]. split; [reflexivity|exact Hw].
  - cbn [ValidateAll].
    destruct (Validate_returns fuel a w Hfuel) as (r & w1 & Hone).
    rewrite Hone.
    destruct (IH w1 (Validate_keeps_built_once _ _ _ _ _ Hw Hone))
      as (rs & w2 & Hrest & Hlen & Hb).
    rewrite Hrest. exists (r :: rs), w2.
    split; [reflexivity|]. split; [simpl; now rewrite Hlen | exact Hb].
Qed.

(** X6: however many requests go through [Validate] of a new plugin, one
    after the other: every request is answered, and over all the calls
    the evaluator is built at most once, never after a request was
    evaluated without it, and the once flag ends set exactly if the
    evaluator was built. *)
Theorem ValidateAll_builds_evaluator_once (fuel : nat)
  (requests : list Attributes) (t : Time) :
  (102 <= fuel)%nat ->
  exists results w',
    ValidateAll clusterQuotaSynced namespaceSynced tie Evaluate fuel
      requests (mkWorld t false []) = Some (results, w') /\
    List.length results = List.length requests /\
    initDone w' = existsb is_new_evaluator (trace w') /\
    builds_then_evaluates false (trace w') = true.
Proof.
  intros Hfuel.
  apply (ValidateAll_keeps_built_once fuel requests Hfuel).
  now split.
Qed.

End MoreOnValidate.

(** The caches come into sync 250ms after the call and stay so. *)
Lemma Validate_notices_sync_within_one_poll_witness :
  exists w',
    Validate (fun t => (250 * Millisecond <=? t)%Z) (fun _ => true)
      (fun _ => true) (fun _ => None) 102
      (mkAttributes Create "" "ns1" "pod1") (mkWorld 0%Z false [])
      = Some (None, w') /\
    (clock (mkWorld 0%Z false []) <= clock w'
     < 250 * Millisecond + pollInterval)%Z.
Proof.
  refine (Validate_notices_sync_within_one_poll
            (fun t => (250 * Millisecond <=? t)%Z) (fun _ => true)
            (fun _ => true) (fun _ => None) 102
            (mkAttributes Create "" "ns1" "pod1") (mkWorld 0%Z false [])
            (250 * Millisecond)%Z _ _ _ _ _ _).
  - apply le_n.
  - reflexivity.
  - simpl. discriminate.
  - unfold synced. intros t t' Hle Ht. rewrite andb_true_r in *.
    apply Z.leb_le. apply Z.leb_le in Ht. lia.
  - simpl. tz.
  - reflexivity.
Defined.

(** A subresource update, two pod creations and a cluster-scoped creation,
    the caches in sync from 250ms on. *)
Lemma ValidateAll_builds_evaluator_once_witness :
  exists results w',
    ValidateAll (fun t => (250 * Millisecond <=? t)%Z) (fun _ => true)
      (fun _ => true) (fun _ => None) 102
      [mkAttributes Update "status" "ns1" "pod1";
       mkAttributes Create "" "ns1" "pod1";
       mkAttributes Create "" "ns1" "pod2";
       mkAttributes Create "" "" "node1"]
      (mkWorld 0%Z false []) = Some (results, w') /\
    List.length results = 4%nat /\
    initDone w' = existsb is_new_evaluator (trace w') /\
    builds_then_evaluates false (trace w') = true.
Proof.
  refine (ValidateAll_builds_evaluator_once
            (fun t => (250 * Millisecond <=? t)%Z) (fun _ => true)
            (fun _ => true) (fun _ => None) 102
            [mkAttributes Update "status" "ns1" "pod1";
             mkAttributes Create "" "ns1" "pod1";
             mkAttributes Create "" "ns1" "pod2";
             mkAttributes Create "" "" "node1"]
            0%Z _).
  apply le_n.
Defined.

End ClusterResourceQuotaFacts.

Module lruFacts.

Import lru.

Lemma lookup_without_same (V : Type) (key : string) (l : list (string * V)) :
  lookup key (without key l) = None.
Proof.
  induction l as [|[k v] l IH]; simpl; [reflexivity|].
  destruct (String.eqb key k) eqn:E; simpl; [exact IH|].
  now rewrite E.
Qed.

Lemma lookup_without_other (V : Type) (key k : string)
  (l : list (string * V)) :
  k <> key -> lookup k (without key l) = lookup k l.
Proof.
  intros Hne. induction l as [|[k' v] l IH]; simpl; [reflexivity|].
  destruct (String.eqb key k') eqn:E; simpl.
  - apply String.eqb_eq in E. subst k'.
    destruct (String.eqb k key) eqn:E'; [|exact IH].
    apply String.eqb_eq in E'. contradiction.
  - now rewrite IH.
Qed.

(** [Get] answers what [Peek] would. *)
Lemma Get_value (V : Type) (key : string) (c : Cache V) :
  fst (Get key c) = Peek key c.
Proof. unfold Get, Peek. destruct (lookup key (items c)); reflexivity. Qed.

(** [Get] changes the order of use only. *)
Lemma Peek_Get (V : Type) (key k : string) (c : Cache V) :
  Peek k (snd (Get key c)) = Peek k c.
Proof.
  unfold Get, Peek. destruct (lookup key (items c)) as [v|] eqn:E;
    [|reflexivity].
  simpl. destruct (String.eqb k key) eqn:Ek.
  - apply String.eqb_eq in Ek. now subst k.
  - apply lookup_without_other. intros ->.
    rewrite String.eqb_refl in Ek. discriminate.
Qed.

Lemma size_Get (V : Type) (key : string) (c : Cache V) :
  size (snd (Get key c)) = size c.
Proof. unfold Get. destruct (lookup key (items c)); reflexivity. Qed.

Lemma size_Add (V : Type) (key : string) (v : V) (c : Cache V) :
  size (Add key v c) = size c.
Proof.
  unfold Add. destruct (lookup key (items c)); [reflexivity|].
  destruct (size c <? _)%nat; reflexivity.
Qed.

(** In a cache that holds at least one entry, what was just added is
    there. *)
Lemma Peek_Add (V : Type) (key : string) (v : V) (c : Cache V) :
  (1 <= size c)%nat -> Peek key (Add key v c) = Some v.
Proof.
  intros Hsize. unfold Add, Peek.
  destruct (lookup key (items c)) eqn:E; simpl.
  - now rewrite String.eqb_refl.
  - destruct (items c) as [|x xs] eqn:Ei; simpl.
    + destruct (size c <? 1)%nat eqn:Hlt; simpl.
      * apply Nat.ltb_lt in Hlt. lia.
      * now rewrite String.eqb_refl.
    + destruct (size c <? S (S (List.length xs)))%nat; simpl;
        now rewrite String.eqb_refl.
Qed.

Lemma length_without (V : Type) (key : string) (l : list (string * V)) :
  (List.length (without key l) <= List.length l)%nat.
Proof.
  induction l as [|[k v] l IH]; simpl; [lia|].
  destruct (String.eqb key k); simpl; lia.
Qed.

Lemma length_without_found (V : Type) (key : string)
  (l : list (string * V)) (v : V) :
  lookup key l = Some v ->
  (S (List.length (without key l)) <= List.length l)%nat.
Proof.
  induction l as [|[k v'] l IH]; simpl; [discriminate|].
  destruct (String.eqb key k); simpl.
  - intros _. pose proof (length_without V key l). lia.
  - intros H. apply IH in H. lia.
Qed.

Lemma lookup_In (V : Type) (key : string) (l : list (string * V)) (v : V) :
  lookup key l = Some v -> In (key, v) l.
Proof.
  induction l as [|[k v'] l IH]; simpl; [discriminate|].
  destruct (String.eqb key k) eqn:E.
  - apply String.eqb_eq in E. subst k. intros [= ->]. now left.
  - intros H. right. now apply IH.
Qed.

Lemma Forall_without (V : Type) (P : string * V -> Prop) (key : string)
  (l : list (string * V)) :
  Forall P l -> Forall P (without key l).
Proof.
  unfold without. intros H. apply Forall_forall. intros x Hx.
  apply filter_In in Hx. destruct Hx as (Hx & _).
  revert x Hx. now apply Forall_forall.
Qed.

Lemma Forall_removelast (A : Type) (P : A -> Prop) (l : list A) :
  Forall P l -> Forall P (removelast l).
Proof.
  induction 1 as [|x l Hx Hl IH]; simpl; [constructor|].
  destruct l; [constructor|]. now constructor.
Qed.

Lemma length_removelast_cons (A : Type) (x : A) (l : list A) :
  List.length (removelast (x :: l)) = List.length l.
Proof.
  revert x. induction l as [|y l IH]; intros x; [reflexivity|].
  change (removelast (x :: y :: l)) with (x :: removelast (y :: l)).
  cbn [List.length]. now rewrite IH.
Qed.

(** [Get] keeps a cache within its size, and keeps what holds of every
    entry. *)
Lemma Get_keeps (V : Type) (P : string * V -> Prop) (key : string)
  (c : Cache V) :
  (List.length (items c) <= size c)%nat -> Forall P (items c) ->
  (List.length (items (snd (Get key c))) <= size (snd (Get key c)))%nat /\
  Forall P (items (snd (Get key c))).
Proof.
  intros Hlen Hall. unfold Get.
  destruct (lookup key (items c)) as [v|] eqn:E; simpl; [|now split].
  split.
  - pose proof (length_without_found V key (items c) v E). lia.
  - constructor; [|now apply Forall_without].
    apply lookup_In in E. revert E. now apply Forall_forall.
Qed.

(** [Add] keeps a cache within its size, and keeps what holds of every
    entry if it holds of the new one. *)
Lemma Add_keeps (V : Type) (P : string * V -> Prop) (key : string) (v : V)
  (c : Cache V) :
  (List.length (items c) <= size c)%nat -> Forall P (items c) ->
  P (key, v) ->
  (List.length (items (Add key v c)) <= size (Add key v c))%nat /\
  Forall P (items (Add key v c)).
Proof.
  intros Hlen Hall Hnew. unfold Add.
  destruct (lookup key (items c)) as [old|] eqn:E; cbn [size items].
  - split.
    + pose proof (length_without_found V key (items c) old E).
      cbn [List.length]. lia.
    + constructor; [exact Hnew | now apply Forall_without].
  - cbv zeta.
    destruct (size c <? List.length ((key, v) :: items c))%nat eqn:Hfull;
      cbn [size items].
    + split.
      * rewrite length_removelast_cons. exact Hlen.
      * apply Forall_removelast. now constructor.
    + apply Nat.ltb_ge in Hfull. split; [exact Hfull | now constructor].
Qed.

End lruFacts.

Module ImagePolicyFacts.

Import apierrs ImagePolicy.

(** *** The resolver built by [newImageResolutionCache] *)

Lemma newImageResolutionCache_asBuilt (imageClient : ImageV1Interface)
  (integratedRegistry : string -> bool) :
  asBuilt (newImageResolutionCache imageClient integratedRegistry).
Proof. split; reflexivity. Qed.

Lemma ID_nonempty (ref : reference.DockerImageReference) :
  reference.ID ref <> "" ->
  (0 <? GoString.len (reference.ID ref))%nat = true.
Proof. destruct (reference.ID ref); [congruence|reflexivity]. Qed.

Lemma fetchByID_asBuilt (c : imageResolutionCache) (now : Time)
  (ref : reference.DockerImageReference) :
  asBuilt c -> asBuilt (snd (fetchByID c now ref)).
Proof.
  intros [He Hs]. unfold fetchByID, asBuilt.
  destruct (Images_Get (imageClient c) (reference.ID ref));
    cbn [snd setCache expiration cache].
  - split; [exact He|]. now rewrite lruFacts.size_Add.
  - now split.
Qed.

Section DigestBranch.

Variable Parse : string -> reference.DockerImageReference + error.
Variable Exact : reference.DockerImageReference -> string.
Variable JoinImageStreamTag : string -> string -> string.
Variable c : imageResolutionCache.
Variable now : Time.
Variable ref : reference.DockerImageReference.
Variable defaultNamespace : string.
Variable forceResolveLocalNames : bool.

Hypothesis has_digest : reference.ID ref <> "".

Let result : Resolution :=
  resolveImageReference Parse Exact JoinImageStreamTag c now ref
    defaultNamespace forceResolveLocalNames.

(** A fresh entry answers, and the cache keeps its content. *)
Lemma digest_fresh (cached : imageCacheEntry) :
  lru.Peek (reference.ID ref) (cache c) = Some cached ->
  (now <? expires cached)%Z = true ->
  fst result =
    (Some (rules.mkImagePolicyAttributes ref (image cached) false false),
     None) /\
  (forall k, lru.Peek k (cache (snd result)) = lru.Peek k (cache c)) /\
  expiration (snd result) = expiration c /\
  lru.size (cache (snd result)) = lru.size (cache c).
Proof.
  intros Hpeek Hfresh. unfold result, resolveImageReference.
  rewrite (ID_nonempty ref has_digest).
  pose proof (lruFacts.Get_value _ (reference.ID ref) (cache c)) as Hv.
  pose proof (fun k => lruFacts.Peek_Get _ (reference.ID ref) k (cache c))
    as Hp.
  pose proof (lruFacts.size_Get _ (reference.ID ref) (cache c)) as Hs.
  destruct (lru.Get (reference.ID ref) (cache c)) as [got cache1].
  simpl in Hv, Hp, Hs. rewrite Hv, Hpeek, Hfresh. simpl. auto.
Qed.

(** No entry, or a stale one: the image API answers, and its image is
    remembered for [expiration c]. *)
Lemma digest_stale :
  (1 <= lru.size (cache c))%nat ->
  match lru.Peek (reference.ID ref) (cache c) with
  | Some cached => (now <? expires cached)%Z
  | None => false
  end = false ->
  expiration (snd result) = expiration c /\
  lru.size (cache (snd result)) = lru.size (cache c) /\
  match Images_Get (imageClient c) (reference.ID ref) with
  | inl fetched =>
      fst result =
        (Some (rules.mkImagePolicyAttributes ref (Some fetched)
                 (integrated c (reference.Registry ref)) false),
         None) /\
      lru.Peek (reference.ID ref) (cache (snd result)) =
        Some (mkImageCacheEntry (now + expiration c)%Z (Some fetched))
  | inr err =>
      fst result = (None, Some err) /\
      forall k, lru.Peek k (cache (snd result)) = lru.Peek k (cache c)
  end.
Proof.
  intros Hsize Hstale. unfold result, resolveImageReference.
  rewrite (ID_nonempty ref has_digest).
  pose proof (lruFacts.Get_value _ (reference.ID ref) (cache c)) as Hv.
  pose proof (fun k => lruFacts.Peek_Get _ (reference.ID ref) k (cache c))
    as Hp.
  pose proof (lruFacts.size_Get _ (reference.ID ref) (cache c)) as Hs.
  destruct (lru.Get (reference.ID ref) (cache c)) as [got cache1].
  simpl in Hv, Hp, Hs. rewrite <- Hv in Hstale.
  assert (Hfetch :
    fetchByID (setCache c cache1) now ref =
    match got with
    | Some cached =>
        if (now <? expires cached)%Z
        then (Some (rules.mkImagePolicyAttributes ref (image cached)
                      false false), None, setCache c cache1)
        else fetchByID (setCache c cache1) now ref
    | None => fetchByID (setCache c cache1) now ref
    end) by (destruct got; [rewrite Hstale|]; reflexivity).
  rewrite <- Hfetch. unfold fetchByID.
  cbn [imageClient setCache expiration cache integrated].
  destruct (Images_Get (imageClient c) (reference.ID ref));
    cbn [fst snd imageClient setCache expiration cache integrated].
  - rewrite lruFacts.size_Add. repeat split; [exact Hs|].
    apply lruFacts.Peek_Add. lia.
  - repeat split; [exact Hs|exact Hp].
Qed.

End DigestBranch.

(** C3: a reference with a digest, given to a resolver built by
    [newImageResolutionCache].  If the cache holds an entry for the digest
    and the clock reads strictly less than the entry's expiry, the answer
    is the cached image (for the reference as given) and the cache keeps
    its content.  Otherwise the image API is asked for the digest; the
    image it answers is returned and is in the cache afterwards with an
    expiry exactly one minute after the clock reading (an error it
    answers is returned as it is, the cache's content unchanged). *)
Theorem resolveImageReference_digest_cache_then_store
  (Parse : string -> reference.DockerImageReference + error)
  (Exact : reference.DockerImageReference -> string)
  (JoinImageStreamTag : string -> string -> string)
  (c : imageResolutionCache) (now : Time)
  (ref : reference.DockerImageReference) (defaultNamespace : string)
  (forceResolveLocalNames : bool) :
  reference.ID ref <> "" ->
  asBuilt c ->
  let result :=
    resolveImageReference Parse Exact JoinImageStreamTag c now ref
      defaultNamespace forceResolveLocalNames in
  let fresh :=
    match lru.Peek (reference.ID ref) (cache c) with
    | Some cached => (now <? expires cached)%Z
    | None => false
    end in
  asBuilt (snd result) /\
  if fresh then
    exists cached,
      lru.Peek (reference.ID ref) (cache c) = Some cached /\
      fst result =
        (Some (rules.mkImagePolicyAttributes ref (image cached) false false),
         None) /\
      forall k, lru.Peek k (cache (snd result)) = lru.Peek k (cache c)
  else
    match Images_Get (imageClient c) (reference.ID ref) with
    | inl fetched =>
        fst result =
          (Some (rules.mkImagePolicyAttributes ref (Some fetched)
                   (integrated c (reference.Registry ref)) false),
           None) /\
        lru.Peek (reference.ID ref) (cache (snd result)) =
          Some (mkImageCacheEntry (now + Minute)%Z (Some fetched))
    | inr err =>
        fst result = (None, Some err) /\
        forall k, lru.Peek k (cache (snd result)) = lru.Peek k (cache c)
    end.
Proof.
  intros Hid [Hexp Hsize]. cbv zeta.
  destruct (match lru.Peek (reference.ID ref) (cache c) with
            | Some cached => (now <? expires cached)%Z
            | None => false
            end) eqn:Hfresh.
  - destruct (lru.Peek (reference.ID ref) (cache c)) as [cached|] eqn:Hpeek;
      [|discriminate].
    destruct (digest_fresh Parse Exact JoinImageStreamTag c now ref
                defaultNamespace forceResolveLocalNames Hid cached
                Hpeek Hfresh) as (Hres & Hsame & He & Hs).
    split; [split; congruence|].
    exists cached. auto.
  - destruct (digest_stale Parse Exact JoinImageStreamTag c now ref
                defaultNamespace forceResolveLocalNames Hid)
      as (He & Hs & Hres); [lia | exact Hfresh |].
    split; [split; congruence|].
    rewrite Hexp in Hres. exact Hres.
Qed.


Lemma resolveImageReference_digest_cache_then_store_witness :
  let c := newImageResolutionCache Examples.client
             Examples.integratedRegistry in
  let result :=
    resolveImageReference Examples.Parse Examples.Exact
      Examples.JoinImageStreamTag c 0%Z Examples.mysqlByDigest "default"
      false in
  asBuilt (snd result) /\
  fst result =
    (Some (rules.mkImagePolicyAttributes Examples.mysqlByDigest
             (Some Examples.goodImage) true false),
     None) /\
  lru.Peek Examples.goodSHA (cache (snd result)) =
    Some (mkImageCacheEntry Minute (Some Examples.goodImage)).
Proof.
  refine (resolveImageReference_digest_cache_then_store
            Examples.Parse Examples.Exact Examples.JoinImageStreamTag
            (newImageResolutionCache Examples.client
               Examples.integratedRegistry)
            0%Z Examples.mysqlByDigest "default" false _ _).
  - simpl. discriminate.
  - apply newImageResolutionCache_asBuilt.
Defined.

(** A miss followed, within the minute, by a resolution of the same
    reference: the two answers name the same reference and the same image,
    but the second always says [IntegratedRegistry = false] while the first
    says what the registry matcher says of the reference's registry. *)
Lemma hit_after_miss
  (Parse : string -> reference.DockerImageReference + error)
  (Exact : reference.DockerImageReference -> string)
  (JoinImageStreamTag : string -> string -> string)
  (c : imageResolutionCache) (now later : Time)
  (ref : reference.DockerImageReference) (ns ns' : string)
  (force force' : bool) (fetched : imagev1.Image) :
  reference.ID ref <> "" ->
  asBuilt c ->
  lru.Peek (reference.ID ref) (cache c) = None ->
  Images_Get (imageClient c) (reference.ID ref) = inl fetched ->
  (later < now + Minute)%Z ->
  let first :=
    resolveImageReference Parse Exact JoinImageStreamTag c now ref ns force in
  let second :=
    resolveImageReference Parse Exact JoinImageStreamTag (snd first) later
      ref ns' force' in
  fst first =
    (Some (rules.mkImagePolicyAttributes ref (Some fetched)
             (integrated c (reference.Registry ref)) false), None) /\
  fst second =
    (Some (rules.mkImagePolicyAttributes ref (Some fetched) false false),
     None).
Proof.
  intros Hid [Hexp Hsize] Hmiss Hget Hlater. cbv zeta.
  destruct (digest_stale Parse Exact JoinImageStreamTag c now ref
              ns force Hid) as (He & Hs & Hres);
    [lia | now rewrite Hmiss |].
  rewrite Hget in Hres. destruct Hres as (Hfirst & Hpeek).
  split; [exact Hfirst|].
  apply (digest_fresh Parse Exact JoinImageStreamTag _ later ref ns' force'
           Hid _ Hpeek).
  cbn [expires]. apply Z.ltb_lt. rewrite Hexp. exact Hlater.
Qed.

(** C4, at the image of the integrated registry that the package's test
    admits and then validates.  The first resolution of
    [integrated.registry/repo/mysql@sha256:0815...] misses the cache and
    answers [IntegratedRegistry = true]; the second, thirty seconds later,
    is answered from the cache with the same reference and image but
    [IntegratedRegistry = false]: the two attribute sets differ. *)
Theorem cache_hit_drops_IntegratedRegistry :
  let c := newImageResolutionCache Examples.client
             Examples.integratedRegistry in
  let first :=
    resolveImageReference Examples.Parse Examples.Exact
      Examples.JoinImageStreamTag c 0%Z Examples.mysqlByDigest "default"
      false in
  let second :=
    resolveImageReference Examples.Parse Examples.Exact
      Examples.JoinImageStreamTag (snd first) (30 * Examples.Second)%Z
      Examples.mysqlByDigest "default" false in
  fst first =
    (Some (rules.mkImagePolicyAttributes Examples.mysqlByDigest
             (Some Examples.goodImage) true false), None) /\
  fst second =
    (Some (rules.mkImagePolicyAttributes Examples.mysqlByDigest
             (Some Examples.goodImage) false false), None) /\
  fst first <> fst second.
Proof.
  cbv zeta. split; [reflexivity|]. split; [reflexivity|].
  intros H. vm_compute in H. discriminate H.
Qed.

(** C9: a reference that carries a digest is resolved by the digest, its
    tag ignored.  Whatever tag it carries, and whatever the tag and stream
    lookups of the image API, the default namespace and the force flag
    are, the resolution answers the same image, flags and error and leaves
    the same cache; the attributes it answers name the reference as
    given. *)
Theorem resolveImageReference_digest_ignores_tag
  (Parse Parse' : string -> reference.DockerImageReference + error)
  (Exact Exact' : reference.DockerImageReference -> string)
  (Join Join' : string -> string -> string)
  (c : imageResolutionCache) (now : Time)
  (ref : reference.DockerImageReference) (tag : string)
  (ns ns' : string) (force force' : bool)
  (tags' : string -> string -> imagev1.ImageStreamTag + error)
  (streams' : string -> string -> imagev1.ImageStream + error) :
  reference.ID ref <> "" ->
  let c' :=
    mkImageResolutionCache
      (mkImageV1Interface (Images_Get (imageClient c)) tags' streams')
      (integrated c) (expiration c) (cache c) in
  let r := resolveImageReference Parse Exact Join c now ref ns force in
  let r' :=
    resolveImageReference Parse' Exact' Join' c' now
      (reference.setTag ref tag) ns' force' in
  binding r = binding r' /\
  cache (snd r) = cache (snd r') /\
  (forall attrs, fst (fst r) = Some attrs -> rules.Name attrs = ref) /\
  (forall attrs, fst (fst r') = Some attrs ->
                 rules.Name attrs = reference.setTag ref tag).
Proof.
  intros Hid. cbv zeta. unfold resolveImageReference.
  change (reference.ID (reference.setTag ref tag)) with (reference.ID ref).
  rewrite (ID_nonempty ref Hid).
  cbn [cache].
  destruct (lru.Get (reference.ID ref) (cache c)) as [[cached|] cache1].
  - destruct (now <? expires cached)%Z.
    + repeat split; intros attrs [= <-]; reflexivity.
    + unfold fetchByID.
      change (reference.ID (reference.setTag ref tag))
        with (reference.ID ref).
      cbn [imageClient setCache Images_Get].
      destruct (Images_Get (imageClient c) (reference.ID ref));
        repeat split; intros attrs [= <-]; reflexivity.
  - unfold fetchByID.
    change (reference.ID (reference.setTag ref tag)) with (reference.ID ref).
    cbn [imageClient setCache Images_Get].
    destruct (Images_Get (imageClient c) (reference.ID ref));
      repeat split; intros attrs [= <-]; reflexivity.
Qed.

Lemma resolveImageReference_digest_ignores_tag_witness :
  let c := newImageResolutionCache Examples.client
             Examples.integratedRegistry in
  let c' :=
    mkImageResolutionCache
      (mkImageV1Interface (Images_Get (imageClient c))
         (fun _ _ => inr (errorString "unreachable"))
         (fun _ _ => inr (errorString "unreachable")))
      (integrated c) (expiration c) (cache c) in
  let r :=
    resolveImageReference Examples.Parse Examples.Exact
      Examples.JoinImageStreamTag c 0%Z Examples.mysqlByDigest "default"
      false in
  let r' :=
    resolveImageReference Examples.Parse Examples.Exact
      Examples.JoinImageStreamTag c' 0%Z
      (reference.setTag Examples.mysqlByDigest "latest") "other" true in
  binding r = binding r' /\
  cache (snd r) = cache (snd r') /\
  (forall attrs, fst (fst r) = Some attrs ->
                 rules.Name attrs = Examples.mysqlByDigest) /\
  (forall attrs, fst (fst r') = Some attrs ->
                 rules.Name attrs =
                 reference.setTag Examples.mysqlByDigest "latest").
Proof.
  refine (resolveImageReference_digest_ignores_tag
            Examples.Parse Examples.Parse Examples.Exact Examples.Exact
            Examples.JoinImageStreamTag Examples.JoinImageStreamTag
            (newImageResolutionCache Examples.client
               Examples.integratedRegistry)
            0%Z Examples.mysqlByDigest "latest" "default" "other" false true
            (fun _ _ => inr (errorString "unreachable"))
            (fun _ _ => inr (errorString "unreachable")) _).
  simpl. discriminate.
Defined.

(** *** Tag not found *)

(** C6: the tag's binding is absent (the image API answers a not-found
    for the image stream tag) while the stream exists and its repository
    is known and is a reference.  If the stream resolves local names, or
    local resolution is forced, the answer is the repository with the
    requested tag, [LocalRewrite] set, no image and no error; if not, the
    resolution fails with the API's error (and names no reference). *)
Theorem resolveImageStreamTag_tag_not_found
  (Parse : string -> reference.DockerImageReference + error)
  (JoinImageStreamTag : string -> string -> string)
  (c : imageResolutionCache) (now : Time)
  (namespace name tag : string) (partial forceResolveLocalNames : bool)
  (err : error) (stream : imagev1.ImageStream)
  (repository : reference.DockerImageReference) :
  ImageStreamTags_Get (imageClient c) namespace
    (JoinImageStreamTag name tag) = inr err ->
  isImageStreamTagNotFound err = true ->
  ImageStreams_Get (imageClient c) namespace name = inl stream ->
  imagev1.StatusDockerImageRepository stream <> "" ->
  Parse (imagev1.StatusDockerImageRepository stream) = inl repository ->
  resolveImageStreamTag Parse JoinImageStreamTag c now namespace name tag
    partial forceResolveLocalNames
  = if forceResolveLocalNames || imagev1.SpecLookupPolicyLocal stream
    then (Some (rules.mkImagePolicyAttributes
                  (reference.setTag repository tag) None
                  (negb partial) true),
          None, c)
    else (Some (rules.mkImagePolicyAttributes reference.zero None
                  (negb partial) false),
          Some err, c).
Proof.
  intros Htag Hnf Hstream Hrepo Hparse.
  unfold resolveImageStreamTag, streamFallback.
  rewrite Htag, Hnf, Hstream, Hparse.
  destruct (imagev1.StatusDockerImageRepository stream) as [|ch repo];
    [congruence|].
  destruct forceResolveLocalNames, (imagev1.SpecLookupPolicyLocal stream),
    partial; reflexivity.
Qed.

(** The case "if the tag is not found, but the stream is and resolves,
    resolve to the tag" of the package's test: [test:other] becomes
    [integrated.registry:5000/default/test:other]. *)
Lemma resolveImageStreamTag_tag_not_found_witness :
  resolveImageStreamTag Examples.Parse Examples.JoinImageStreamTag
    (newImageResolutionCache Examples.client Examples.integratedRegistry)
    0%Z "default" "test" "other" true false
  = (Some (rules.mkImagePolicyAttributes
             (reference.mkDockerImageReference
                "integrated.registry:5000" "default" "test" "other" "")
             None false true),
     None,
     newImageResolutionCache Examples.client Examples.integratedRegistry).
Proof.
  refine (resolveImageStreamTag_tag_not_found
            Examples.Parse Examples.JoinImageStreamTag
            (newImageResolutionCache Examples.client
               Examples.integratedRegistry)
            0%Z "default" "test" "other" true false
            (Examples.notFound "imagestreamtags" "test:other")
            (imagev1.mkImageStream true
               "integrated.registry:5000/default/test")
            (reference.mkDockerImageReference
               "integrated.registry:5000" "default" "test" "" "")
            _ _ _ _ _).
  - reflexivity.
  - reflexivity.
  - reflexivity.
  - simpl. discriminate.
  - reflexivity.
Defined.

(** The stream [private] does not resolve local names: its missing tag
    fails. *)
Example resolveImageStreamTag_not_local :
  resolveImageStreamTag Examples.Parse Examples.JoinImageStreamTag
    (newImageResolutionCache Examples.client Examples.integratedRegistry)
    0%Z "default" "private" "other" true false
  = (Some (rules.mkImagePolicyAttributes reference.zero None false false),
     Some (Examples.notFound "imagestreamtags" "private:other"),
     newImageResolutionCache Examples.client Examples.integratedRegistry).
Proof. reflexivity. Qed.

(** *** Whether to rewrite *)

Lemma rewriteByRules_spec
  (rewritesFor : imagepolicyv1.ImageResolutionType -> bool)
  (config : imagepolicyv1.ImagePolicyConfig)
  (attr : rules.ImagePolicyAttributes) (gr : metav1.GroupResource)
  (rest : list imagepolicyv1.ImageResolutionPolicyRule) :
  forall hasMatchingRule,
    rewriteByRules rewritesFor config rest attr gr hasMatchingRule =
    if existsb (ruleRewrites rewritesFor attr gr) rest then true
    else if hasMatchingRule || existsb (ruleCovers gr) rest then false
    else rewritesFor (imagepolicyv1.ResolveImages config).
Proof.
  induction rest as [|rule rest IH]; intros has; simpl.
  - now rewrite orb_false_r.
  - unfold ruleRewrites at 1, ruleCovers at 1 2.
    destruct (resolutionRuleCoversResource
                (imagepolicyv1.TargetResource rule) gr); simpl.
    + destruct (imagepolicyv1.LocalNames rule && rules.LocalRewrite attr);
        simpl; [reflexivity|].
      destruct (rewritesFor (imagepolicyv1.Policy rule)); simpl;
        [reflexivity|].
      rewrite IH. simpl. now rewrite orb_true_r.
    + apply IH.
Qed.

Lemma ruleRewrites_covers
  (rewritesFor : imagepolicyv1.ImageResolutionType -> bool)
  (attr : rules.ImagePolicyAttributes) (gr : metav1.GroupResource)
  (l : list imagepolicyv1.ImageResolutionPolicyRule) :
  existsb (ruleRewrites rewritesFor attr gr) l = true ->
  existsb (ruleCovers gr) l = true.
Proof.
  induction l as [|rule l IH]; simpl; [congruence|].
  unfold ruleRewrites at 1.
  destruct (ruleCovers gr rule); simpl; [reflexivity|exact IH].
Qed.

(** C5, as the code decides: first, on an update of a kind whose spec is
    immutable (jobs, builds, stateful sets) there is no rewrite, whatever
    the rules say; then, if some rule covers the resource kind, the rewrite
    happens exactly when one of the covering rules asks for it (by local
    name, the reference having been resolved locally, or by its policy);
    and only when no rule covers the kind does the global policy decide. *)
Theorem RewriteImagePullSpec_immutable_kinds_then_rules_then_default
  (rewritesFor : imagepolicyv1.ImageResolutionType -> bool)
  (config : imagepolicyv1.ImagePolicyConfig)
  (attr : rules.ImagePolicyAttributes) (isUpdate : bool)
  (gr : metav1.GroupResource) :
  RewriteImagePullSpec rewritesFor config attr isUpdate gr =
  RewriteImagePullSpec_immutable_first rewritesFor config attr isUpdate gr.
Proof.
  unfold RewriteImagePullSpec, RewriteImagePullSpec_immutable_first.
  destruct (isUpdate && skipsRewriteOnUpdate gr); [reflexivity|].
  rewrite rewriteByRules_spec. simpl.
  destruct (existsb (ruleRewrites rewritesFor attr gr)
              (imagepolicyv1.ResolutionRules config)) eqn:E.
  - now rewrite (ruleRewrites_covers _ _ _ _ E).
  - destruct (existsb (ruleCovers gr) (imagepolicyv1.ResolutionRules config));
      reflexivity.
Qed.

(** C5 as stated fails: with the rules first the job's rule would have the
    reference rewritten on update; the code does not rewrite it. *)
Lemma RewriteImagePullSpec_rules_do_not_come_first :
  RewriteImagePullSpec_rules_first rewritingPolicy jobsRuleConfig
    locallyResolved true (metav1.mkGroupResource "batch" "jobs") = true /\
  RewriteImagePullSpec rewritingPolicy jobsRuleConfig
    locallyResolved true (metav1.mkGroupResource "batch" "jobs") = false.
Proof. split; reflexivity. Qed.

(** The code decides every case of the package's test as the test
    expects. *)
Example RewriteImagePullSpec_test_table :
  forallb
    (fun '(config, localRewrite, update, resource, rewrite) =>
       Bool.eqb
         (RewriteImagePullSpec rewritingPolicy config
            (rules.mkImagePolicyAttributes reference.zero None false
               localRewrite)
            update resource)
         rewrite)
    testResolutionConfig = true.
Proof. reflexivity. Qed.

(** The same rule on the creation of a job: rewritten. *)
Example RewriteImagePullSpec_job_create :
  RewriteImagePullSpec rewritingPolicy jobsRuleConfig
    locallyResolved false (metav1.mkGroupResource "batch" "jobs") = true.
Proof. reflexivity. Qed.

(** A rule that covers the kind and does not ask for the rewrite hides a
    rewriting global policy (the comment on the method: "no pods will be
    rewritten"). *)
Example RewriteImagePullSpec_rule_hides_default :
  RewriteImagePullSpec rewritingPolicy
    (imagepolicyv1.mkImagePolicyConfig imagepolicyv1.RequiredRewrite
       [imagepolicyv1.mkImageResolutionPolicyRule imagepolicyv1.DoNotAttempt
          (metav1.mkGroupResource "" "pods") false])
    (rules.mkImagePolicyAttributes reference.zero None false false)
    false (metav1.mkGroupResource "" "pods") = false.
Proof. reflexivity. Qed.

(** *** Validation does not mutate silently *)

Lemma DeepEqual_eq (a b : kapi.ObjectReference) :
  kapi.DeepEqual a b = true <-> a = b.
Proof.
  unfold kapi.DeepEqual. rewrite !andb_true_iff, !String.eqb_eq.
  destruct a, b; simpl. split.
  - intros [[[[[[-> ->] ->] ->] ->] ->] ->]. reflexivity.
  - intros [= -> -> -> -> -> -> ->]. repeat split.
Qed.

Section PluginProperties.

Variable Object : Type.
Variable accepter_Covers : metav1.GroupResource -> bool.
Variable config : imagepolicyv1.ImagePolicyConfig.
Variable GetImageReferenceMutator :
  Object -> option Object -> ImageReferenceMutator Object + error.
Variable nsLister_Get : string -> list (string * string) + error.
Variable IgnorePolicyRulesAnnotation : string.
Variable typeName : Object -> string.
Variable NewForbidden : metav1.GroupResource -> string -> error -> error.
Variable accept :
  ImageReferenceMutator Object -> Attributes Object ->
  option (list string) -> Object -> Object * option error.

(** C7 as the code has it: in validation mode the policy runs with the
    object's mutator wrapped by the preventer, so that a rewrite that
    changes the reference it is given fails with an error that says
    "changed after admission", and a rewrite that leaves it alone passes.
    The preventer reports the change and does not undo it: the reference
    is left as the rewrite wrote it. *)
Theorem Validate_reports_changed_reference
  (attr : Attributes Object) (m : ImageReferenceMutator Object) :
  GetOperation attr = Create \/ GetOperation attr = Update ->
  GetSubresource attr = "" ->
  accepter_Covers (GetResource attr) || Covers config (GetResource attr)
    = true ->
  GetImageReferenceMutator (GetObject attr) (GetOldObject attr) = inl m ->
  Validate accepter_Covers config GetImageReferenceMutator nsLister_Get
    IgnorePolicyRulesAnnotation typeName NewForbidden accept attr
  = accept (fun fn => m (preventMutation fn)) attr
      (excludedRules nsLister_Get IgnorePolicyRulesAnnotation attr)
      (GetObject attr) /\
  (forall fn ref ref',
     fn ref = (ref', None) -> ref' <> ref ->
     exists e,
       preventMutation fn ref = (ref', Some e) /\
       GoString.Contains (Error e) "changed after admission" = true) /\
  (forall fn ref,
     fn ref = (ref, None) -> preventMutation fn ref = (ref, None)).
Proof.
  intros Hop Hsub Hcov Hm. split; [|split].
  - unfold Validate, imagePolicyPlugin_admit, applyPolicy. rewrite Hsub, Hm.
    apply orb_true_iff in Hcov.
    assert (Hc : negb (accepter_Covers (GetResource attr)) &&
                 negb (Covers config (GetResource attr)) = false)
      by (destruct Hcov as [-> | ->]; simpl;
          [reflexivity | apply andb_false_r]).
    destruct Hop as [-> | ->]; simpl; rewrite Hc; reflexivity.
  - intros fn ref ref' Hfn Hne. unfold preventMutation. rewrite Hfn.
    destruct (kapi.DeepEqual ref' ref) eqn:E.
    + apply DeepEqual_eq in E. contradiction.
    + simpl. eexists. split; reflexivity.
  - intros fn ref Hfn. unfold preventMutation. rewrite Hfn.
    rewrite (proj2 (DeepEqual_eq ref ref) eq_refl). reflexivity.
Qed.

(** C10: for an operation other than a creation or an update, and for a
    creation or an update of a subresource, [admit] returns nil and leaves
    the object as it was, whoever its collaborators are: none of them
    (the mutators, the namespace lister, [accept]) is reached. *)
Theorem admit_ignores_other_operations_and_subresources
  (attr : Attributes Object) (mutationAllowed : bool) :
  (GetOperation attr <> Create /\ GetOperation attr <> Update) \/
  GetSubresource attr <> "" ->
  imagePolicyPlugin_admit accepter_Covers config GetImageReferenceMutator
    nsLister_Get IgnorePolicyRulesAnnotation typeName NewForbidden accept
    attr mutationAllowed
  = (GetObject attr, None).
Proof.
  intros [[Hc Hu] | Hsub]; unfold imagePolicyPlugin_admit.
  - destruct (GetOperation attr); congruence.
  - destruct (GetSubresource attr); [congruence|].
    destruct (GetOperation attr); reflexivity.
Qed.

End PluginProperties.

(** An object whose image reference went back to the tag is validated
    through a copying mutator: the preventer's error comes out. *)
Lemma Validate_reports_changed_reference_witness :
  snd (Validate (fun _ => true) jobsRuleConfig
         (fun _ _ => inl Examples.copyBack)
         (fun _ => inr (errorString "namespace not found"))
         "alpha.image.policy.openshift.io/ignore-rules"
         (fun _ => "Build") (fun _ _ e => e) Examples.acceptByRewrite
         (Examples.buildAttributes Update "" Examples.byTag))
  = Some (errorString
            "this image is prohibited by policy (changed after admission)").
Proof.
  refine (eq_trans
            (f_equal snd
               (proj1 (Validate_reports_changed_reference
                         kapi.ObjectReference
                         (fun _ => true) jobsRuleConfig
                         (fun _ _ => inl Examples.copyBack)
                         (fun _ => inr (errorString "namespace not found"))
                         "alpha.image.policy.openshift.io/ignore-rules"
                         (fun _ => "Build") (fun _ _ e => e)
                         Examples.acceptByRewrite
                         (Examples.buildAttributes Update "" Examples.byTag)
                         Examples.copyBack
                         (or_intror eq_refl) eq_refl eq_refl eq_refl)))
            _).
  reflexivity.
Defined.

(** C7 as stated fails in its last part.  The rewrite of the tag to the
    digest, run under the preventer, is refused with "changed after
    admission", yet the reference it was given now holds the digest; and
    when the mutator hands out the object's own field, [Validate] returns
    the error and leaves the object rewritten. *)
Lemma preventMutation_leaves_reference_rewritten :
  preventMutation Examples.resolveToDigest Examples.byTag
  = (Examples.byDigest,
     Some (errorString
             "this image is prohibited by policy (changed after admission)"))
  /\
  Validate (fun _ => true) jobsRuleConfig
    (fun _ _ => inl Examples.inPlace)
    (fun _ => inr (errorString "namespace not found"))
    "alpha.image.policy.openshift.io/ignore-rules"
    (fun _ => "Build") (fun _ _ e => e) Examples.acceptByRewrite
    (Examples.buildAttributes Update "" Examples.byTag)
  = (Examples.byDigest,
     Some (errorString
             "this image is prohibited by policy (changed after admission)"))
  /\
  Examples.byDigest <> Examples.byTag.
Proof. repeat split. discriminate. Qed.

(** What does hold: under the preventer, a mutator that works on a copy
    and writes it back on success leaves the object as it was, whatever
    the rewrite does. *)
Lemma copyBack_unchanged_under_prevention
  (fn : ImageReferenceMutateFunc) (obj : kapi.ObjectReference) :
  fst (mutationPreventer_Mutate Examples.copyBack fn obj) = obj.
Proof.
  unfold mutationPreventer_Mutate, Examples.copyBack, preventMutation.
  destruct (fn obj) as [ref' [e|]]; [reflexivity|].
  destruct (kapi.DeepEqual ref' obj) eqn:E; simpl; [|reflexivity].
  now apply DeepEqual_eq.
Qed.

(** The deletion of a build is let through untouched, though this [accept]
    would have rewritten it. *)
Lemma admit_ignores_other_operations_and_subresources_witness :
  imagePolicyPlugin_admit (fun _ => true) jobsRuleConfig
    (fun _ _ => inl Examples.inPlace)
    (fun _ => inr (errorString "namespace not found"))
    "alpha.image.policy.openshift.io/ignore-rules"
    (fun _ => "Build") (fun _ _ e => e) Examples.acceptByRewrite
    (Examples.buildAttributes Delete "" Examples.byTag) true
  = (Examples.byTag, None).
Proof.
  refine (admit_ignores_other_operations_and_subresources
            kapi.ObjectReference
            (fun _ => true) jobsRuleConfig
            (fun _ _ => inl Examples.inPlace)
            (fun _ => inr (errorString "namespace not found"))
            "alpha.image.policy.openshift.io/ignore-rules"
            (fun _ => "Build") (fun _ _ e => e) Examples.acceptByRewrite
            (Examples.buildAttributes Delete "" Examples.byTag) true _).
  left. split; discriminate.
Defined.

(** An update of a build's subresource is let through as well. *)
Example admit_subresource :
  imagePolicyPlugin_admit (fun _ => true) jobsRuleConfig
    (fun _ _ => inl Examples.inPlace)
    (fun _ => inr (errorString "namespace not found"))
    "alpha.image.policy.openshift.io/ignore-rules"
    (fun _ => "Build") (fun _ _ e => e) Examples.acceptByRewrite
    (Examples.buildAttributes Update "details" Examples.byTag) false
  = (Examples.byTag, None).
Proof. reflexivity. Qed.

(** *** More on the resolver *)

Lemma wellFormed_new (imageClient : ImageV1Interface)
  (integratedRegistry : string -> bool) :
  wellFormed (newImageResolutionCache imageClient integratedRegistry).
Proof.
  repeat split; try reflexivity.
  - unfold withinSize. simpl. lia.
  - constructor.
Qed.

Lemma wellFormed_Add (c : imageResolutionCache) (key : string) (t : Time)
  (img : imagev1.Image) :
  wellFormed c ->
  wellFormed
    (setCache c (lru.Add key (mkImageCacheEntry t (Some img)) (cache c))).
Proof.
  intros ((Hexp & Hsize) & Hlen & Hall).
  destruct (lruFacts.Add_keeps _ (fun kv => image (snd kv) <> None) key
              (mkImageCacheEntry t (Some img)) (cache c) Hlen Hall)
    as (Hlen' & Hall'); [simpl; discriminate|].
  repeat split; cbn [setCache expiration cache]; try assumption.
  now rewrite lruFacts.size_Add.
Qed.

Lemma wellFormed_Get (c : imageResolutionCache) (key : string) :
  wellFormed c ->
  wellFormed (setCache c (snd (lru.Get key (cache c)))).
Proof.
  intros ((Hexp & Hsize) & Hlen & Hall).
  destruct (lruFacts.Get_keeps _ (fun kv => image (snd kv) <> None) key
              (cache c) Hlen Hall) as (Hlen' & Hall').
  repeat split; cbn [setCache expiration cache]; try assumption.
  now rewrite lruFacts.size_Get.
Qed.

Lemma sameContent_refl (c : imageResolutionCache) : sameContent c c.
Proof. intros k. reflexivity. Qed.

Section Answers.

Variable Parse : string -> reference.DockerImageReference + error.
Variable Exact : reference.DockerImageReference -> string.
Variable JoinImageStreamTag : string -> string -> string.
Variable JoinImageStreamImage : string -> string -> string.
Variable SplitImageStreamTag : string -> string * string * bool.
Variable SplitImageStreamImage : string -> string * string * bool.
Variable ImageStreamImages_Get :
  string -> string -> imagev1.ImageStreamImage + error.
Variable Quote : string -> string.

Lemma resolveImageStreamTag_answered (c : imageResolutionCache) (now : Time)
  (namespace name tag : string) (partial force : bool) :
  wellFormed c ->
  answered c
    (resolveImageStreamTag Parse JoinImageStreamTag c now namespace name tag
       partial force).
Proof.
  intros Hwf. unfold resolveImageStreamTag, answered.
  destruct (ImageStreamTags_Get (imageClient c) namespace
              (JoinImageStreamTag name tag)) as [resolved|err].
  - destruct (partial && (negb force &&
                          negb (imagev1.TagLookupPolicyLocal resolved))).
    + cbn [fst snd rules.Image]. repeat split; try apply Hwf.
    + destruct (Parse (imagev1.DockerImageReference
                         (imagev1.TagImage resolved))) as [ref|perr];
        cbn [fst snd rules.Image].
      * split; [now apply wellFormed_Add|]. left. discriminate.
      * destruct partial; cbn [rules.Image];
          repeat split; try apply Hwf.
  - destruct (if isImageStreamTagNotFound err
              then streamFallback Parse c namespace name tag force
              else None) as [ref|]; cbn [fst snd rules.LocalRewrite].
    + split; [exact Hwf|]. now right.
    + destruct partial; cbn [rules.Image]; repeat split; try apply Hwf.
Qed.

Lemma resolveImageStreamImage_answered (c : imageResolutionCache)
  (now : Time) (namespace name id : string) :
  wellFormed c ->
  answered c
    (resolveImageStreamImage Parse JoinImageStreamImage ImageStreamImages_Get
       c now namespace name id).
Proof.
  intros Hwf. unfold resolveImageStreamImage, answered.
  destruct (ImageStreamImages_Get namespace
              (JoinImageStreamImage name id)) as [resolved|err];
    cbn [fst snd rules.Image].
  - destruct (Parse (imagev1.DockerImageReference
                       (imagev1.StreamImage resolved))) as [ref|perr];
      cbn [fst snd rules.Image].
    + split; [now apply wellFormed_Add|]. left. discriminate.
    + repeat split; try apply Hwf.
  - repeat split; try apply Hwf.
Qed.

Lemma resolveImageReference_answered (c : imageResolutionCache) (now : Time)
  (ref : reference.DockerImageReference) (defaultNamespace : string)
  (force : bool) :
  wellFormed c ->
  answered c
    (resolveImageReference Parse Exact JoinImageStreamTag c now ref
       defaultNamespace force).
Proof.
  intros Hwf. unfold resolveImageReference.
  destruct (0 <? GoString.len (reference.ID ref))%nat.
  - pose proof (wellFormed_Get c (reference.ID ref) Hwf) as Hwf1.
    pose proof (fun k => lruFacts.Peek_Get _ (reference.ID ref) k (cache c))
      as Hsame.
    assert (Hfetch :
      answered c
        (fetchByID (setCache c (snd (lru.Get (reference.ID ref) (cache c))))
           now ref)).
    { unfold fetchByID, answered.
      cbn [imageClient setCache expiration cache integrated].
      destruct (Images_Get (imageClient c) (reference.ID ref))
        as [fetched|err]; cbn [fst snd rules.Image].
      - split; [|left; discriminate].
        exact (wellFormed_Add _ (reference.ID ref)
                 (now + expiration c)%Z fetched Hwf1).
      - split; [exact Hwf1 | exact Hsame]. }
    unfold lru.Get in *.
    destruct (lru.lookup (reference.ID ref) (lru.items (cache c)))
      as [cached|] eqn:Hfound; cbn [snd] in *; [|exact Hfetch].
    destruct (now <? expires cached)%Z; [|exact Hfetch].
    unfold answered. cbn [fst snd rules.Image].
    split; [exact Hwf1|]. left.
    destruct Hwf as (_ & _ & Hall).
    apply lruFacts.lookup_In in Hfound.
    exact (proj1 (Forall_forall _ _) Hall _ Hfound).
  - destruct (negb (integrated c (reference.Registry ref)) &&
              negb (force ||
                    (GoString.len (reference.Registry ref) =? 0)%nat &&
                    (GoString.len (reference.Namespace ref) =? 0)%nat &&
                    (0 <? GoString.len (reference.Name ref))%nat)).
    + unfold answered. cbn [fst snd]. split; [exact Hwf|].
      apply sameContent_refl.
    + now apply resolveImageStreamTag_answered.
Qed.

Lemma ResolveObjectReference_answered (c : imageResolutionCache)
  (now : Time) (ref : kapi.ObjectReference) (defaultNamespace : string)
  (force : bool) :
  wellFormed c ->
  answered c
    (ResolveObjectReference Parse Exact JoinImageStreamTag
       JoinImageStreamImage SplitImageStreamTag SplitImageStreamImage
       ImageStreamImages_Get Quote c now ref defaultNamespace force).
Proof.
  intros Hwf. unfold ResolveObjectReference.
  destruct (String.eqb (kapi.Kind ref) "ImageStreamTag").
  { destruct (SplitImageStreamTag (kapi.Name ref)) as [[name tag] [|]];
      cbn [negb].
    - now apply resolveImageStreamTag_answered.
    - unfold answered. cbn [fst snd rules.Image].
      repeat split; try apply Hwf. }
  destruct (String.eqb (kapi.Kind ref) "ImageStreamImage").
  { destruct (SplitImageStreamImage (kapi.Name ref)) as [[name id] [|]];
      cbn [negb].
    - now apply resolveImageStreamImage_answered.
    - unfold answered. cbn [fst snd rules.Image].
      repeat split; try apply Hwf. }
  destruct (String.eqb (kapi.Kind ref) "DockerImage").
  { destruct (Parse (kapi.Name ref)) as [parsed|err].
    - now apply resolveImageReference_answered.
    - unfold answered. cbn [fst snd]. split; [exact Hwf|].
      apply sameContent_refl. }
  unfold answered. cbn [fst snd]. split; [exact Hwf|].
  apply sameContent_refl.
Qed.

End Answers.

Section ResolverProperties.

Variable Parse : string -> reference.DockerImageReference + error.
Variable Exact : reference.DockerImageReference -> string.
Variable JoinImageStreamTag : string -> string -> string.
Variable JoinImageStreamImage : string -> string -> string.
Variable SplitImageStreamTag : string -> string * string * bool.
Variable SplitImageStreamImage : string -> string * string * bool.
Variable ImageStreamImages_Get :
  string -> string -> imagev1.ImageStreamImage + error.
Variable Quote : string -> string.

(** X7: what [ResolveObjectReference] returns, whatever the kind of the
    reference: never nil attributes with a nil error; attributes that
    come with an error carry no image; and attributes that come without
    an error carry an image or are marked [LocalRewrite]. *)
Theorem ResolveObjectReference_result_shape (c : imageResolutionCache)
  (now : Time) (ref : kapi.ObjectReference) (defaultNamespace : string)
  (force : bool) :
  wellFormed c ->
  let r :=
    ResolveObjectReference Parse Exact JoinImageStreamTag
      JoinImageStreamImage SplitImageStreamTag SplitImageStreamImage
      ImageStreamImages_Get Quote c now ref defaultNamespace force in
  fst r <> (None, None) /\
  (forall attrs err,
     fst r = (Some attrs, Some err) -> rules.Image attrs = None) /\
  (forall attrs,
     fst r = (Some attrs, None) ->
     rules.Image attrs <> None \/ rules.LocalRewrite attrs = true).
Proof.
  intros Hwf. cbv zeta.
  destruct (ResolveObjectReference_answered Parse Exact JoinImageStreamTag
              JoinImageStreamImage SplitImageStreamTag SplitImageStreamImage
              ImageStreamImages_Get Quote c now ref defaultNamespace force
              Hwf) as (_ & Hshape).
  destruct (fst (ResolveObjectReference _ _ _ _ _ _ _ _ _ _ _ _ _))
    as [[attrs|] [err|]].
  - repeat split; [discriminate | | discriminate].
    intros attrs' err' [= <- _]. apply Hshape.
  - repeat split; [discriminate | discriminate |].
    intros attrs' [= <-]. exact Hshape.
  - repeat split; discriminate.
  - contradiction.
Qed.

(** X8: a resolution that returns an error leaves in the cache what was
    there: every digest is answered by the cache after the call as it was
    before. *)
Theorem failed_resolution_keeps_cache (c : imageResolutionCache)
  (now : Time) (ref : kapi.ObjectReference) (defaultNamespace : string)
  (force : bool) :
  wellFormed c ->
  let r :=
    ResolveObjectReference Parse Exact JoinImageStreamTag
      JoinImageStreamImage SplitImageStreamTag SplitImageStreamImage
      ImageStreamImages_Get Quote c now ref defaultNamespace force in
  snd (fst r) <> None ->
  forall k, lru.Peek k (cache (snd r)) = lru.Peek k (cache c).
Proof.
  intros Hwf. cbv zeta.
  destruct (ResolveObjectReference_answered Parse Exact JoinImageStreamTag
              JoinImageStreamImage SplitImageStreamTag SplitImageStreamImage
              ImageStreamImages_Get Quote c now ref defaultNamespace force
              Hwf) as (_ & Hshape).
  destruct (fst (ResolveObjectReference _ _ _ _ _ _ _ _ _ _ _ _ _))
    as [[attrs|] [err|]]; cbn [snd]; intros Herr;
    [apply Hshape | congruence | exact Hshape | contradiction].
Qed.

Lemma serve_wellFormed (requests : list Request) :
  forall c,
    wellFormed c ->
    wellFormed
      (serve Parse Exact JoinImageStreamTag JoinImageStreamImage
         SplitImageStreamTag SplitImageStreamImage ImageStreamImages_Get
         Quote c requests).
Proof.
  induction requests as [|[[[now ref] ns] force] rest IH]; intros c Hwf;
    [exact Hwf|].
  cbn [serve]. apply IH.
  now apply ResolveObjectReference_answered.
Qed.

(** X9: a resolver from [newImageResolutionCache], after any sequence of
    resolutions: its cache still has room for 128 entries and holds no
    more, every entry holds an image, and entries are still kept for a
    minute. *)
Theorem serve_keeps_cache_bounded (imageClient : ImageV1Interface)
  (integratedRegistry : string -> bool) (requests : list Request) :
  let c :=
    serve Parse Exact JoinImageStreamTag JoinImageStreamImage
      SplitImageStreamTag SplitImageStreamImage ImageStreamImages_Get Quote
      (newImageResolutionCache imageClient integratedRegistry) requests in
  expiration c = Minute /\
  lru.size (cache c) = 128%nat /\
  (List.length (lru.items (cache c)) <= 128)%nat /\
  Forall (fun kv => image (snd kv) <> None) (lru.items (cache c)).
Proof.
  cbv zeta.
  destruct (serve_wellFormed requests
              (newImageResolutionCache imageClient integratedRegistry)
              (wellFormed_new imageClient integratedRegistry))
    as ((Hexp & Hsize) & Hlen & Hall).
  unfold withinSize in Hlen. rewrite Hsize in Hlen.
  repeat split; assumption.
Qed.

(** X10: a tag that resolves, then the reference it resolved to.  The
    tag's resolution answers the bound image under the parsed reference
    with the tag dropped and the image's name as digest; resolving that
    reference within the minute answers the same image from the cache,
    whatever the image API would say. *)
Theorem tag_resolution_feeds_digest_resolution
  (c : imageResolutionCache) (now later : Time)
  (namespace name tag : string) (partial force : bool)
  (resolved : imagev1.ImageStreamTag)
  (parsed : reference.DockerImageReference)
  (images' : string -> imagev1.Image + error)
  (defaultNamespace : string) (force' : bool) :
  asBuilt c ->
  ImageStreamTags_Get (imageClient c) namespace
    (JoinImageStreamTag name tag) = inl resolved ->
  partial && (negb force && negb (imagev1.TagLookupPolicyLocal resolved))
    = false ->
  Parse (imagev1.DockerImageReference (imagev1.TagImage resolved))
    = inl parsed ->
  imagev1.Name (imagev1.TagImage resolved) <> "" ->
  (later < now + Minute)%Z ->
  let img := imagev1.TagImage resolved in
  let pinned :=
    reference.setID (reference.setTag parsed "") (imagev1.Name img) in
  let first :=
    resolveImageStreamTag Parse JoinImageStreamTag c now namespace name tag
      partial force in
  let c' :=
    mkImageResolutionCache
      (mkImageV1Interface images' (ImageStreamTags_Get (imageClient c))
         (ImageStreams_Get (imageClient c)))
      (integrated c) (expiration c) (cache (snd first)) in
  let second :=
    resolveImageReference Parse Exact JoinImageStreamTag c' later pinned
      defaultNamespace force' in
  fst first =
    (Some (rules.mkImagePolicyAttributes pinned (Some img) true partial),
     None) /\
  exists attrs,
    fst second = (Some attrs, None) /\
    rules.Name attrs = pinned /\ rules.Image attrs = Some img.
Proof.
  intros [Hexp Hsize] Htag Hlocal Hparse Hname Hlater. cbv zeta.
  assert (Hfirst :
    resolveImageStreamTag Parse JoinImageStreamTag c now namespace name tag
      partial force =
    (Some (rules.mkImagePolicyAttributes
             (reference.setID (reference.setTag parsed "")
                (imagev1.Name (imagev1.TagImage resolved)))
             (Some (imagev1.TagImage resolved)) true partial),
     None,
     setCache c
       (lru.Add (imagev1.Name (imagev1.TagImage resolved))
          (mkImageCacheEntry (now + expiration c)%Z
             (Some (imagev1.TagImage resolved)))
          (cache c)))).
  { unfold resolveImageStreamTag. rewrite Htag, Hlocal, Hparse.
    destruct partial; reflexivity. }
  rewrite Hfirst. cbn [fst snd setCache cache].
  split; [reflexivity|].
  match goal with
  | |- exists attrs, fst (resolveImageReference _ _ _ ?c2 _ ?pinned _ _)
                     = _ /\ _ =>
      destruct (digest_fresh Parse Exact JoinImageStreamTag c2 later pinned
                  defaultNamespace force' Hname
                  (mkImageCacheEntry (now + expiration c)%Z
                     (Some (imagev1.TagImage resolved))))
        as (Hsecond & _)
  end.
  - cbn [cache reference.ID reference.setID].
    apply lruFacts.Peek_Add. lia.
  - cbn [expires]. apply Z.ltb_lt. rewrite Hexp. exact Hlater.
  - rewrite Hsecond. eexists. repeat split.
Qed.

(** X11: a pull spec without digest and without tag is resolved as the
    tag [latest]: it gets the answer the same pull spec with [:latest]
    gets, and leaves the resolver in the same state. *)
Theorem resolveImageReference_empty_tag_is_latest
  (c : imageResolutionCache) (now : Time)
  (ref : reference.DockerImageReference) (defaultNamespace : string)
  (force : bool) :
  reference.ID ref = "" ->
  reference.Tag ref = "" ->
  resolvable c ref force = true ->
  resolveImageReference Parse Exact JoinImageStreamTag c now ref
    defaultNamespace force =
  resolveImageReference Parse Exact JoinImageStreamTag c now
    (reference.setTag ref "latest") defaultNamespace force.
Proof.
  intros Hid Htag Hres.
  destruct ref as [registry namespace name tag id].
  cbn [reference.ID reference.Tag] in Hid, Htag. subst id tag.
  unfold resolvable in Hres. unfold resolveImageReference.
  cbn [reference.ID reference.Tag reference.Registry reference.Namespace
       reference.Name reference.setTag reference.setNamespace] in *.
  apply orb_true_iff in Hres.
  assert (Hgo :
    negb (integrated c registry) &&
    negb (force ||
          (GoString.len registry =? 0)%nat &&
          (GoString.len namespace =? 0)%nat &&
          (0 <? GoString.len name)%nat) = false).
  { destruct Hres as [-> | ->]; [reflexivity | apply andb_false_r]. }
  rewrite Hgo.
  change (0 <? GoString.len "")%nat with false.
  change (GoString.len "" =? 0)%nat with true.
  change (GoString.len "latest" =? 0)%nat with false.
  cbv iota.
  destruct ((GoString.len namespace =? 0)%nat || force); reflexivity.
Qed.

(** X12: with local names forced, a pull spec without digest is looked up
    as the image stream tag of its name and tag in the default namespace:
    its registry and its namespace play no part. *)
Theorem forced_resolution_uses_name_and_tag_only
  (c : imageResolutionCache) (now : Time)
  (ref ref' : reference.DockerImageReference) (defaultNamespace : string) :
  reference.ID ref = "" ->
  reference.ID ref' = "" ->
  reference.Name ref = reference.Name ref' ->
  reference.Tag ref = reference.Tag ref' ->
  resolveImageReference Parse Exact JoinImageStreamTag c now ref
    defaultNamespace true =
  resolveImageReference Parse Exact JoinImageStreamTag c now ref'
    defaultNamespace true.
Proof.
  intros Hid Hid' Hname Htag. unfold resolveImageReference.
  rewrite Hid, Hid', Htag.
  change (0 <? GoString.len "")%nat with false. cbv iota.
  rewrite !orb_true_r, !andb_false_r. cbn [orb].
  cbn [reference.setNamespace reference.Namespace reference.Name].
  now rewrite Hname.
Qed.

(** X13: when [ResolveObjectReference] returns no error, the reference was
    of one of the three kinds and well formed for its kind: an image
    stream tag [NAME:TAG], an image stream image [NAME@DIGEST], or a pull
    spec that parses and either carries a digest, or names the integrated
    registry, or is a single name, or was resolved with local names
    forced.  Anything else is refused. *)
Theorem ResolveObjectReference_success_conditions
  (c : imageResolutionCache) (now : Time) (ref : kapi.ObjectReference)
  (defaultNamespace : string) (force : bool) :
  snd (fst (ResolveObjectReference Parse Exact JoinImageStreamTag
              JoinImageStreamImage SplitImageStreamTag SplitImageStreamImage
              ImageStreamImages_Get Quote c now ref defaultNamespace force))
    = None ->
  (kapi.Kind ref = "ImageStreamTag" /\
   snd (SplitImageStreamTag (kapi.Name ref)) = true) \/
  (kapi.Kind ref = "ImageStreamImage" /\
   snd (SplitImageStreamImage (kapi.Name ref)) = true) \/
  (kapi.Kind ref = "DockerImage" /\
   exists parsed,
     Parse (kapi.Name ref) = inl parsed /\
     (reference.ID parsed <> "" \/ resolvable c parsed force = true)).
Proof.
  unfold ResolveObjectReference.
  destruct (String.eqb (kapi.Kind ref) "ImageStreamTag") eqn:Etag.
  { apply String.eqb_eq in Etag.
    destruct (SplitImageStreamTag (kapi.Name ref)) as [[name tag] [|]];
      cbn [negb fst snd]; [|discriminate].
    intros _. left. now split. }
  destruct (String.eqb (kapi.Kind ref) "ImageStreamImage") eqn:Eimage.
  { apply String.eqb_eq in Eimage.
    destruct (SplitImageStreamImage (kapi.Name ref)) as [[name id] [|]];
      cbn [negb fst snd]; [|discriminate].
    intros _. right. left. now split. }
  destruct (String.eqb (kapi.Kind ref) "DockerImage") eqn:Edocker;
    [|cbn [fst snd]; discriminate].
  apply String.eqb_eq in Edocker.
  destruct (Parse (kapi.Name ref)) as [parsed|err];
    [|cbn [fst snd]; discriminate].
  intros Hok. right. right. split; [exact Edocker|].
  exists parsed. split; [reflexivity|].
  unfold resolveImageReference in Hok. unfold resolvable.
  destruct (0 <? GoString.len (reference.ID parsed))%nat eqn:Hid.
  - left. intros Hempty. rewrite Hempty in Hid. discriminate.
  - right.
    destruct (integrated c (reference.Registry parsed)); [reflexivity|].
    cbn [negb andb orb] in *.
    destruct (force ||
              (GoString.len (reference.Registry parsed) =? 0)%nat &&
              (GoString.len (reference.Namespace parsed) =? 0)%nat &&
              (0 <? GoString.len (reference.Name parsed))%nat);
      [reflexivity | cbn [negb fst snd] in Hok; discriminate].
Qed.

(** X14: a reference to an image stream tag or an image stream image is
    looked up in its own namespace, and in the default namespace when it
    names none; the flag that forces local names plays no part for these
    kinds. *)
Theorem stream_references_default_their_namespace
  (c : imageResolutionCache) (now : Time) (ref : kapi.ObjectReference)
  (defaultNamespace otherNamespace : string) (force force' : bool) :
  kapi.Kind ref = "ImageStreamTag" \/ kapi.Kind ref = "ImageStreamImage" ->
  let namespace :=
    if (GoString.len (kapi.Namespace ref) =? 0)%nat
    then defaultNamespace else kapi.Namespace ref in
  namespace <> "" ->
  ResolveObjectReference Parse Exact JoinImageStreamTag
    JoinImageStreamImage SplitImageStreamTag SplitImageStreamImage
    ImageStreamImages_Get Quote c now ref defaultNamespace force =
  ResolveObjectReference Parse Exact JoinImageStreamTag
    JoinImageStreamImage SplitImageStreamTag SplitImageStreamImage
    ImageStreamImages_Get Quote c now (kapi.setNamespace ref namespace)
    otherNamespace force'.
Proof.
  intros Hkind namespace Hnamespace. unfold ResolveObjectReference.
  cbn [kapi.setNamespace kapi.Kind kapi.Namespace kapi.Name].
  assert (Hlen : (GoString.len namespace =? 0)%nat = false).
  { apply Nat.eqb_neq. intros Hzero.
    now apply GoStringFacts.len_zero in Hzero. }
  rewrite Hlen. fold namespace.
  destruct Hkind as [-> | ->]; reflexivity.
Qed.

End ResolverProperties.

(** The resolver of the examples after it resolved the image stream tag
    [mysql:goodtag] of the namespace [default]: its cache holds the good
    image. *)
Lemma resolver_after_tag_wellFormed :
  wellFormed
    (snd (MoreExamples.resolve MoreExamples.resolver 0%Z
            (MoreExamples.objectReference "ImageStreamTag" "" "mysql:goodtag")
            "default" false)).
Proof.
  apply ResolveObjectReference_answered. apply wellFormed_new.
Qed.

(** The image stream tag [mysql:goodtag] resolves: its answer has the
    shape. *)
Lemma ResolveObjectReference_result_shape_witness :
  let r :=
    MoreExamples.resolve MoreExamples.resolver 0%Z
      (MoreExamples.objectReference "ImageStreamTag" "" "mysql:goodtag")
      "default" false in
  fst r <> (None, None) /\
  (forall attrs err,
     fst r = (Some attrs, Some err) -> rules.Image attrs = None) /\
  (forall attrs,
     fst r = (Some attrs, None) ->
     rules.Image attrs <> None \/ rules.LocalRewrite attrs = true).
Proof.
  exact (ResolveObjectReference_result_shape MoreExamples.Parse
           Examples.Exact Examples.JoinImageStreamTag
           MoreExamples.JoinImageStreamImage MoreExamples.SplitImageStreamTag
           MoreExamples.SplitImageStreamImage
           MoreExamples.ImageStreamImages_Get MoreExamples.Quote
           MoreExamples.resolver 0%Z
           (MoreExamples.objectReference "ImageStreamTag" ""
              "mysql:goodtag")
           "default" false
           (wellFormed_new MoreExamples.clientWithTag
              Examples.integratedRegistry)).
Defined.

(** The good image is in the cache; the pull spec [docker.io/library/mysql]
    is then refused, and the good image is still answered by the cache. *)
Lemma failed_resolution_keeps_cache_witness :
  let c :=
    snd (MoreExamples.resolve MoreExamples.resolver 0%Z
           (MoreExamples.objectReference "ImageStreamTag" "" "mysql:goodtag")
           "default" false) in
  let r :=
    MoreExamples.resolve c Examples.Second
      (MoreExamples.objectReference "DockerImage" ""
         "docker.io/library/mysql")
      "default" false in
  snd (fst r) <> None /\
  lru.Peek Examples.goodSHA (cache (snd r)) =
  Some (mkImageCacheEntry Minute (Some Examples.goodImage)).
Proof.
  split; [discriminate|].
  refine (eq_trans
            (failed_resolution_keeps_cache MoreExamples.Parse
               Examples.Exact Examples.JoinImageStreamTag
               MoreExamples.JoinImageStreamImage
               MoreExamples.SplitImageStreamTag
               MoreExamples.SplitImageStreamImage
               MoreExamples.ImageStreamImages_Get MoreExamples.Quote
               (snd (MoreExamples.resolve MoreExamples.resolver 0%Z
                       (MoreExamples.objectReference "ImageStreamTag" ""
                          "mysql:goodtag")
                       "default" false))
               Examples.Second
               (MoreExamples.objectReference "DockerImage" ""
                  "docker.io/library/mysql")
               "default" false resolver_after_tag_wellFormed _
               Examples.goodSHA)
            _).
  - discriminate.
  - reflexivity.
Defined.

(** The tag [mysql:goodtag] resolves to the good image; half a minute
    later the image API has lost the image, and the reference by digest
    still resolves to it. *)
Lemma tag_resolution_feeds_digest_resolution_witness :
  let pinned :=
    reference.mkDockerImageReference "integrated.registry" "goodns"
      "goodimage" "" Examples.goodSHA in
  let first :=
    resolveImageStreamTag MoreExamples.Parse Examples.JoinImageStreamTag
      MoreExamples.resolver 0%Z "default" "mysql" "goodtag" false false in
  let c' :=
    mkImageResolutionCache
      (mkImageV1Interface
         (fun id => inr (Examples.notFound "images" id))
         (ImageStreamTags_Get MoreExamples.clientWithTag)
         (ImageStreams_Get MoreExamples.clientWithTag))
      Examples.integratedRegistry Minute (cache (snd first)) in
  let second :=
    resolveImageReference MoreExamples.Parse Examples.Exact
      Examples.JoinImageStreamTag c' (30 * Examples.Second)%Z pinned
      "default" false in
  fst first =
    (Some (rules.mkImagePolicyAttributes pinned (Some Examples.goodImage)
             true false),
     None) /\
  exists attrs,
    fst second = (Some attrs, None) /\
    rules.Name attrs = pinned /\ rules.Image attrs = Some Examples.goodImage.
Proof.
  refine (tag_resolution_feeds_digest_resolution MoreExamples.Parse
            Examples.Exact Examples.JoinImageStreamTag
            MoreExamples.resolver 0%Z (30 * Examples.Second)%Z
            "default" "mysql" "goodtag" false false
            (imagev1.mkImageStreamTag false Examples.goodImage)
            (reference.mkDockerImageReference "integrated.registry" "goodns"
               "goodimage" "good" "")
            (fun id => inr (Examples.notFound "images" id))
            "default" false _ _ _ _ _ _).
  - apply newImageResolutionCache_asBuilt.
  - reflexivity.
  - reflexivity.
  - reflexivity.
  - discriminate.
  - reflexivity.
Defined.

(** The pull spec [mysql] is resolved as [mysql:latest]. *)
Lemma resolveImageReference_empty_tag_is_latest_witness :
  resolveImageReference MoreExamples.Parse Examples.Exact
    Examples.JoinImageStreamTag MoreExamples.resolver 0%Z
    (reference.mkDockerImageReference "" "" "mysql" "" "") "default" false =
  resolveImageReference MoreExamples.Parse Examples.Exact
    Examples.JoinImageStreamTag MoreExamples.resolver 0%Z
    (reference.mkDockerImageReference "" "" "mysql" "latest" "") "default"
    false.
Proof.
  exact (resolveImageReference_empty_tag_is_latest MoreExamples.Parse
           Examples.Exact Examples.JoinImageStreamTag MoreExamples.resolver
           0%Z (reference.mkDockerImageReference "" "" "mysql" "" "")
           "default" false eq_refl eq_refl eq_refl).
Defined.

(** With local names forced, [docker.io/library/mysql:goodtag] is resolved
    as [mysql:goodtag] is: to the good image of the stream's tag. *)
Lemma forced_resolution_uses_name_and_tag_only_witness :
  resolveImageReference MoreExamples.Parse Examples.Exact
    Examples.JoinImageStreamTag MoreExamples.resolver 0%Z
    (reference.mkDockerImageReference "docker.io" "library" "mysql"
       "goodtag" "")
    "default" true =
  resolveImageReference MoreExamples.Parse Examples.Exact
    Examples.JoinImageStreamTag MoreExamples.resolver 0%Z
    (reference.mkDockerImageReference "" "" "mysql" "goodtag" "")
    "default" true.
Proof.
  exact (forced_resolution_uses_name_and_tag_only MoreExamples.Parse
           Examples.Exact Examples.JoinImageStreamTag MoreExamples.resolver
           0%Z
           (reference.mkDockerImageReference "docker.io" "library" "mysql"
              "goodtag" "")
           (reference.mkDockerImageReference "" "" "mysql" "goodtag" "")
           "default" eq_refl eq_refl eq_refl eq_refl).
Defined.

(** The forced resolution above does answer the good image. *)
Example forced_resolution_of_docker_io :
  binding
    (resolveImageReference MoreExamples.Parse Examples.Exact
       Examples.JoinImageStreamTag MoreExamples.resolver 0%Z
       (reference.mkDockerImageReference "docker.io" "library" "mysql"
          "goodtag" "")
       "default" true)
  = (Some (Some Examples.goodImage, true, true), None).
Proof. reflexivity. Qed.

(** The image stream image [mysql@] followed by the digest resolves
    without error: it is of a known kind and splits. *)
Lemma ResolveObjectReference_success_conditions_witness :
  let ref :=
    MoreExamples.objectReference "ImageStreamImage" "default"
      (String.append "mysql@" Examples.goodSHA) in
  (kapi.Kind ref = "ImageStreamTag" /\
   snd (MoreExamples.SplitImageStreamTag (kapi.Name ref)) = true) \/
  (kapi.Kind ref = "ImageStreamImage" /\
   snd (MoreExamples.SplitImageStreamImage (kapi.Name ref)) = true) \/
  (kapi.Kind ref = "DockerImage" /\
   exists parsed,
     MoreExamples.Parse (kapi.Name ref) = inl parsed /\
     (reference.ID parsed <> "" \/
      resolvable MoreExamples.resolver parsed false = true)).
Proof.
  exact (ResolveObjectReference_success_conditions MoreExamples.Parse
           Examples.Exact Examples.JoinImageStreamTag
           MoreExamples.JoinImageStreamImage MoreExamples.SplitImageStreamTag
           MoreExamples.SplitImageStreamImage
           MoreExamples.ImageStreamImages_Get MoreExamples.Quote
           MoreExamples.resolver 0%Z
           (MoreExamples.objectReference "ImageStreamImage" "default"
              (String.append "mysql@" Examples.goodSHA))
           "default" false eq_refl).
Defined.

(** The tag [mysql:goodtag] without a namespace, resolved with the default
    namespace [default], is the tag of the namespace [default]. *)
Lemma stream_references_default_their_namespace_witness :
  MoreExamples.resolve MoreExamples.resolver 0%Z
    (MoreExamples.objectReference "ImageStreamTag" "" "mysql:goodtag")
    "default" false =
  MoreExamples.resolve MoreExamples.resolver 0%Z
    (MoreExamples.objectReference "ImageStreamTag" "default" "mysql:goodtag")
    "elsewhere" true.
Proof.
  refine (stream_references_default_their_namespace MoreExamples.Parse
            Examples.Exact Examples.JoinImageStreamTag
            MoreExamples.JoinImageStreamImage MoreExamples.SplitImageStreamTag
            MoreExamples.SplitImageStreamImage
            MoreExamples.ImageStreamImages_Get MoreExamples.Quote
            MoreExamples.resolver 0%Z
            (MoreExamples.objectReference "ImageStreamTag" ""
               "mysql:goodtag")
            "default" "elsewhere" false true (or_introl eq_refl) _).
  discriminate.
Defined.

(** *** More on the resolution configuration *)

Lemma existsb_Permutation (A : Type) (f : A -> bool) (l l' : list A) :
  Permutation l l' -> existsb f l = existsb f l'.
Proof.
  induction 1 as [|x l l' _ IH|x y l|l l' l'' _ IH1 _ IH2]; simpl.
  - reflexivity.
  - now rewrite IH.
  - destruct (f x), (f y); reflexivity.
  - now rewrite IH1.
Qed.

(** X15: the order in which the configuration lists its resolution rules
    plays no part in the decision to rewrite, although the loop returns at
    the first rule that asks for the rewrite. *)
Theorem RewriteImagePullSpec_rule_order_irrelevant
  (rewritesFor : imagepolicyv1.ImageResolutionType -> bool)
  (policy : imagepolicyv1.ImageResolutionType)
  (ordered reordered : list imagepolicyv1.ImageResolutionPolicyRule)
  (attr : rules.ImagePolicyAttributes) (isUpdate : bool)
  (gr : metav1.GroupResource) :
  Permutation ordered reordered ->
  RewriteImagePullSpec rewritesFor
    (imagepolicyv1.mkImagePolicyConfig policy ordered) attr isUpdate gr =
  RewriteImagePullSpec rewritesFor
    (imagepolicyv1.mkImagePolicyConfig policy reordered) attr isUpdate gr.
Proof.
  intros Hperm. unfold RewriteImagePullSpec.
  destruct (isUpdate && skipsRewriteOnUpdate gr); [reflexivity|].
  rewrite !rewriteByRules_spec.
  cbn [imagepolicyv1.ResolutionRules imagepolicyv1.ResolveImages].
  rewrite (existsb_Permutation _ (ruleRewrites rewritesFor attr gr) _ _ Hperm).
  now rewrite (existsb_Permutation _ (ruleCovers gr) _ _ Hperm).
Qed.

(** X16: a pull spec is rewritten only for a resource whose references the
    configuration asks to resolve, provided every policy that rewrites
    also asks for the resolution. *)
Theorem RewriteImagePullSpec_only_where_resolution_is_requested
  (rewritesFor requestsFor : imagepolicyv1.ImageResolutionType -> bool)
  (config : imagepolicyv1.ImagePolicyConfig)
  (attr : rules.ImagePolicyAttributes) (isUpdate : bool)
  (gr : metav1.GroupResource) :
  (forall t, rewritesFor t = true -> requestsFor t = true) ->
  RewriteImagePullSpec rewritesFor config attr isUpdate gr = true ->
  RequestsResolution requestsFor config gr = true.
Proof.
  intros Himplies. unfold RewriteImagePullSpec, RequestsResolution.
  destruct (isUpdate && skipsRewriteOnUpdate gr); [discriminate|].
  rewrite rewriteByRules_spec. cbn [orb].
  fold (ruleCovers gr).
  change (fun rule : imagepolicyv1.ImageResolutionPolicyRule =>
            resolutionRuleCoversResource
              (imagepolicyv1.TargetResource rule) gr)
    with (ruleCovers gr).
  destruct (existsb (ruleRewrites rewritesFor attr gr)
              (imagepolicyv1.ResolutionRules config)) eqn:Erewrites.
  - intros _. rewrite (ruleRewrites_covers _ _ _ _ Erewrites).
    now destruct (requestsFor (imagepolicyv1.ResolveImages config)).
  - destruct (existsb (ruleCovers gr)
                (imagepolicyv1.ResolutionRules config)); [discriminate|].
    intros Hglobal. now rewrite (Himplies _ Hglobal).
Qed.

(** The rule for jobs and the same rule after a rule for pods, in either
    order. *)
Lemma RewriteImagePullSpec_rule_order_irrelevant_witness :
  let jobs :=
    imagepolicyv1.mkImageResolutionPolicyRule EmptyString
      (metav1.mkGroupResource "batch" "jobs") true in
  let pods :=
    imagepolicyv1.mkImageResolutionPolicyRule imagepolicyv1.DoNotAttempt
      (metav1.mkGroupResource "" "pods") false in
  RewriteImagePullSpec rewritingPolicy
    (imagepolicyv1.mkImagePolicyConfig imagepolicyv1.DoNotAttempt
       [jobs; pods])
    locallyResolved false (metav1.mkGroupResource "batch" "jobs") =
  RewriteImagePullSpec rewritingPolicy
    (imagepolicyv1.mkImagePolicyConfig imagepolicyv1.DoNotAttempt
       [pods; jobs])
    locallyResolved false (metav1.mkGroupResource "batch" "jobs").
Proof.
  exact (RewriteImagePullSpec_rule_order_irrelevant rewritingPolicy
           imagepolicyv1.DoNotAttempt _ _ locallyResolved false
           (metav1.mkGroupResource "batch" "jobs")
           (perm_swap _ _ [])).
Defined.

Lemma rewritingPolicy_resolves (t : imagepolicyv1.ImageResolutionType) :
  rewritingPolicy t = true -> MoreExamples.resolvingPolicy t = true.
Proof.
  unfold rewritingPolicy, MoreExamples.resolvingPolicy. intros H.
  apply orb_true_iff in H.
  destruct H as [H | H]; apply String.eqb_eq in H; subst t; reflexivity.
Qed.

(** The rule for jobs has the locally resolved reference of a new job
    rewritten; the configuration asks to resolve the references of jobs. *)
Lemma RewriteImagePullSpec_only_where_resolution_is_requested_witness :
  RequestsResolution MoreExamples.resolvingPolicy jobsRuleConfig
    (metav1.mkGroupResource "batch" "jobs") = true.
Proof.
  exact (RewriteImagePullSpec_only_where_resolution_is_requested
           rewritingPolicy MoreExamples.resolvingPolicy jobsRuleConfig
           locallyResolved false (metav1.mkGroupResource "batch" "jobs")
           rewritingPolicy_resolves eq_refl).
Defined.

(** *** The rules a namespace excludes *)





Section ExcludedRules.

Variable Object : Type.
Variable nsLister_Get : string -> list (string * string) + error.
Variable IgnorePolicyRulesAnnotation : string.


End ExcludedRules.


End ImagePolicyFacts.
